(** * A shallow embedding of [internal/cmd/vet.go] (the [sqlc vet] command)

    The file follows the Go source top to bottom: the string helpers the
    code calls, the protobuf messages of [plugin], the external
    collaborators (parser, drivers, CEL, clock) gathered in one record, the
    capability adapters, the rule compiler of [Vet], the evaluation loop of
    [checkSQL], and finally [Vet] and the command wrapper.  Theorems come
    after all definitions. *)

From Stdlib Require Import ZArith String Ascii List Bool Lia.
From Stdlib Require Import DecimalString.
From Stdlib Require DecimalZ DecimalPos.
From stdpp Require Import base option strings gmap list.
Import ListNotations.

Local Open Scope string_scope.
Local Open Scope list_scope.

(** ** Go's [strings] package, on byte strings *)

Module GoStrings.

(** [strings.HasPrefix(s, prefix)] *)
Fixpoint HasPrefix (s prefix : string) {struct prefix} : bool :=
  match prefix with
  | EmptyString => true
  | String a prefix' =>
      match s with
      | EmptyString => false
      | String b s' => Ascii.eqb a b && HasPrefix s' prefix'
      end
  end.

(** [strings.Contains(s, substr)] *)
Fixpoint Contains (s substr : string) : bool :=
  HasPrefix s substr ||
  match s with
  | EmptyString => false
  | String _ s' => Contains s' substr
  end.

(** [s[n:]] for [n <= len(s)] *)
Fixpoint drop (n : nat) (s : string) : string :=
  match n, s with
  | O, _ => s
  | S n', String _ s' => drop n' s'
  | S _, EmptyString => EmptyString
  end.

(** [strings.TrimPrefix(s, prefix)]: [s] without the leading [prefix],
    or [s] itself when it does not start with [prefix]. *)
Definition TrimPrefix (s prefix : string) : string :=
  if HasPrefix s prefix then drop (String.length prefix) s else s.

End GoStrings.

(** [%d] of [fmt] *)
Definition fmt_d (z : Z) : string := NilZero.string_of_int (Z.to_int z).

(** The newline that ends every [Fprintf] format of the file. *)
Definition nl : string := String (ascii_of_nat 10) EmptyString.

(** ** Errors

    [ErrFailedChecks] is the sentinel of line 33; every other error of the
    file is built by [fmt.Errorf] or handed over by a library, and is kept
    as its message. *)

Inductive error : Type :=
| ErrFailedChecks
| Errorf (msg : string).

Definition Error (e : error) : string :=
  match e with
  | ErrFailedChecks => "failed checks"
  | Errorf msg => msg
  end.

(** [errors.Is(err, ErrFailedChecks)] *)
Definition is_ErrFailedChecks (e : error) : bool :=
  match e with
  | ErrFailedChecks => true
  | Errorf _ => false
  end.

Definition RuleDbPrepare : string := "sqlc/db-prepare".
Definition QueryFlagSqlcVetDisable : string := "@sqlc-vet-disable".

(** ** Messages of package [plugin]

    Fields the vetting code never reads are left out. *)

Record Column := { Column_Name : string; Column_NotNull : bool }.

(** [plugin.Parameter] ([Parameter] is a reserved word here). *)
Record PluginParameter := { Parameter_Number : Z; Parameter_Column : option Column }.

Record Query := {
  Query_Text : string;
  Query_Name : string;
  Query_Cmd : string;
  Query_Params : list PluginParameter;
  Query_Filename : string
}.

Record Settings := {
  Settings_Version : string;
  Settings_Engine : string;
  Settings_Schema : list string;
  Settings_Queries : list string
}.

Record VetParameter := { VetParameter_Number : Z }.

Record VetConfig := {
  VetConfig_Version : string;
  VetConfig_Engine : string;
  VetConfig_Schema : list string;
  VetConfig_Queries : list string
}.

Record VetQuery := {
  VetQuery_Sql : string;
  VetQuery_Name : string;
  VetQuery_Cmd : string;
  VetQuery_Params : list VetParameter
}.

(** The root node of the plan tree of [PostgreSQLExplain], reduced to a few
    of its scalar fields. *)
Record Plan := { Plan_NodeType : string; Plan_RelationName : string; Plan_PlanRows : Z }.

Record PostgreSQLExplain := { PostgreSQLExplain_Plan : option Plan }.

Record PostgreSQL := { PostgreSQL_Explain : option PostgreSQLExplain }.

Record QueryBlock := { QueryBlock_SelectId : Z; QueryBlock_Message : string }.

(** [QueryBlock] is a message field, a pointer that is [nil] when the
    decoded document has no query block. *)
Record MySQLExplain := { MySQLExplain_QueryBlock : option QueryBlock }.

Record MySQL := { MySQL_Explain : option MySQLExplain }.

(** [vetEngineOutput] (line 482); a [nil] pointer is [None]. *)
Record vetEngineOutput := {
  out_PostgreSQL : option PostgreSQL;
  out_MySQL : option MySQL
}.

(** ** Configuration *)

(** Modelled from the spec: the constant [config.EnginePostgreSQL]; package
    [config] is not among the sources at hand, and section 4.1 of the
    specification writes the engine as ['postgresql'] in a rule. *)
Definition EnginePostgreSQL : string := "postgresql".

(** Modelled from the spec: the constant [config.EngineMySQL], after the
    name of the [mysql] variable the specification gives the engine. *)
Definition EngineMySQL : string := "mysql".

(** Modelled from the spec: the constant [config.EngineSQLite], named after
    the engine as the two above are. *)
Definition EngineSQLite : string := "sqlite".

(** [config.SQL], one group: the fields [checkSQL] reads. *)
Record SQL := {
  SQL_Engine : string;
  SQL_Database : option string;   (* [s.Database.URI], [None] for [nil] *)
  SQL_Rules : list string
}.

(** One entry of [conf.Rules]. *)
Record RuleDef := { Rule_Name : string; Rule_Rule : string; Rule_Msg : string }.

Record Config := { Conf_Rules : list RuleDef; Conf_SQL : list SQL }.

(** The dynamic type of [raw.Stmt], as far as [prepareable] tells kinds
    apart. *)
Inductive Stmt : Type :=
| DeleteStmt
| InsertStmt
| SelectStmt
| UpdateStmt
| OtherStmt (kind : string).

(** One entry of [result.Queries] together with the entry of [req.Queries]
    that [codeGenRequest] derives from it (the two slices are parallel). *)
Record CompiledQuery := {
  Flags : gmap string bool;
  RawStmt : Stmt;
  PQuery : Query
}.

Record Result := { Result_Queries : list CompiledQuery; Result_Settings : Settings }.

(** ** The evaluation environment and CEL programs *)

(** The values [checkSQL] stores in [evalMap]. *)
Inductive EnvValue : Type :=
| EnvQuery (q : VetQuery)
| EnvConfig (c : VetConfig)
| EnvPostgreSQL (p : option PostgreSQL)
| EnvMySQL (m : option MySQL).

(** What [out.Value()] can hold: the Go value of the CEL result.  A
    boolean, a signed or unsigned integer, a string and null are kept as
    they are; every other value (a double, a byte string, a list, a map, a
    timestamp, a duration, a message, a type) is kept by the text that
    [%v] prints for it, which is all [checkSQL] does with it. *)
Inductive Val : Type :=
| VBool (b : bool)
| VInt (z : Z)
| VString (s : string)
| VNull
| VUint (n : N)
| VOther (text : string).

(** [%v] of the Go value of a CEL result; null is the enumeration value
    [structpb.NullValue], which prints by its name. *)
Definition fmt_v (v : Val) : string :=
  match v with
  | VBool true => "true"
  | VBool false => "false"
  | VInt z => fmt_d z
  | VString s => s
  | VNull => "NULL_VALUE"
  | VUint n => fmt_d (Z.of_N n)
  | VOther text => text
  end.

(** A compiled [cel.Program] is kept as what [Eval] computes: an error or a
    value, from the evaluation environment. *)
Definition Program : Type := gmap string EnvValue -> string + Val.

(** [rule] (line 261); [Program] is a pointer, [None] for [nil]. *)
Record rule := {
  rule_Program : option Program;
  Message : string;
  NeedsPrepare : bool;
  NeedsExplain : bool
}.

(** ** Calls that leave the process *)

(** A value of type [any] in an argument list. *)
Inductive any : Type :=
| any_nil
| any_Parameter (p : PluginParameter).

Inductive Event : Type :=
| EvOpen (driver url : string)
| EvClose (driver : string)
| EvPgxPrepare (name query : string)
| EvPrepareContext (query : string)
| EvStmtClose
| EvQueryRow (eQuery : string) (eArgs : list any)
| EvQueryRowContext (eQuery : string) (eArgs : list any)
| EvExplain (query : string) (nargs : nat) (ok : bool).

Definition RawMessage : Type := string.

(** Everything [vet.go] calls but does not define.  Drivers answer from
    the history of calls so far, so that a database may answer the same
    statement differently at different times. *)
Record World := {
  parse : SQL -> option Result;
  shfmt_Replace : string -> string;
  time_Now_Unix : list Event -> Z;
  db_Open : string -> string -> option string;
  db_Ping : string -> string -> option string;
  pgx_Prepare : list Event -> string -> string -> option string;
  pgx_QueryRow_Scan : list Event -> string -> list any -> string + list RawMessage;
  sql_PrepareContext : list Event -> string -> option string;
  sql_QueryRowContext_Scan : list Event -> string -> list any -> string + RawMessage;
  pjson_Unmarshal_PostgreSQLExplain : RawMessage -> string + PostgreSQLExplain;
  pjson_Unmarshal_MySQLExplain : RawMessage -> string + MySQLExplain;
  cel_Compile : string -> option string;
  cel_Program : string -> string + Program
}.

(** ** Effects: the error stream, the call history, and panics *)

Record State := { Stderr : list string; Log : list Event }.

Inductive outcome (A : Type) : Type :=
| Done (a : A)
| Panic (msg : string).
Arguments Done {A} a.
Arguments Panic {A} msg.

Definition M (A : Type) : Type := State -> outcome A * State.

Definition ret {A} (a : A) : M A := fun st => (Done a, st).

Definition bind {A B} (m : M A) (k : A -> M B) : M B :=
  fun st =>
    match m st with
    | (Done a, st') => k a st'
    | (Panic msg, st') => (Panic msg, st')
    end.

Definition panic {A} (msg : string) : M A := fun st => (Panic msg, st).

Notation "x <- m ;; k" := (bind m (fun x => k))
  (at level 100, m at next level, right associativity).
Notation "m ;;; k" := (bind m (fun _ => k))
  (at level 100, right associativity).

(** [fmt.Fprintf(c.Stderr, ...)] with the formatted text. *)
Definition Fprintf (text : string) : M unit :=
  fun st => (Done tt, {| Stderr := Stderr st ++ [text]; Log := Log st |}).

Definition emit (e : Event) : M unit :=
  fun st => (Done tt, {| Stderr := Stderr st; Log := Log st ++ [e] |}).

Definition history : M (list Event) := fun st => (Done (Log st), st).

(** A deferred call: it runs when the function is left, by a return or by
    a panic. *)
Definition defer {A} (cleanup : M unit) (body : M A) : M A :=
  fun st =>
    match body st with
    | (r, st') => (r, snd (cleanup st'))
    end.

(** ** [prepareable] (lines 160-187) *)

Definition prepareable (sql : SQL) (raw : Stmt) : bool :=
  if SQL_Engine sql =? EnginePostgreSQL then
    match raw with
    | DeleteStmt => true
    | InsertStmt => true
    | SelectStmt => true
    | UpdateStmt => true
    | _ => false
    end
  else if SQL_Engine sql =? EngineMySQL then true
  else if SQL_Engine sql =? EngineSQLite then true
  else false.

(** ** Capability providers (lines 189-259) *)

(** The two implementations of interface [preparer]. *)
Inductive preparer : Type := pgxConn_p | dbPreparer.

(** The two implementations of interface [explainer]. *)
Inductive explainer : Type := pgxConn_e | mysqlExplainer.

Definition nil_dereference : string :=
  "runtime error: invalid memory address or nil pointer dereference".

Definition index_out_of_range : string :=
  "runtime error: index out of range [0] with length 0".

(** [pgxConn.Prepare] (lines 197-200) *)
Definition pgxConn_Prepare (w : World) (name query : string) : M (option error) :=
  h <- history ;;
  emit (EvPgxPrepare name query) ;;;
  ret (Errorf <$> pgx_Prepare w h name query).

(** [sql.DB.PrepareContext]: the statement handle is [nil] exactly when
    the error is not. *)
Definition PrepareContext (w : World) (query : string) : M (option unit * option error) :=
  h <- history ;;
  emit (EvPrepareContext query) ;;;
  match sql_PrepareContext w h query with
  | Some e => ret (None, Some (Errorf e))
  | None => ret (Some tt, None)
  end.

(** [sql.Stmt.Close]: it locks a mutex of the receiver first, which a
    [nil] receiver does not have. *)
Definition Stmt_Close (s : option unit) : M unit :=
  match s with
  | Some _ => emit EvStmtClose
  | None => panic nil_dereference
  end.

(** [dbPreparer.Prepare] (lines 225-229) *)
Definition dbPreparer_Prepare (w : World) (name query : string) : M (option error) :=
  r <- PrepareContext w query ;;
  let '(s, err) := r in
  Stmt_Close s ;;;
  ret err.

(** [prep.Prepare(ctx, name, query)] through the interface. *)
Definition Prepare (w : World) (p : preparer) (name query : string) : M (option error) :=
  match p with
  | pgxConn_p => pgxConn_Prepare w name query
  | dbPreparer => dbPreparer_Prepare w name query
  end.

(** [pgxConn.Explain] (lines 202-219); the dump to standard output
    under [debug.Debug.DumpExplain] is not kept. *)
Definition pgxConn_Explain (w : World) (query : string) (args : list PluginParameter)
  : M (error + vetEngineOutput) :=
  let eQuery :=
    "EXPLAIN (ANALYZE false, VERBOSE, COSTS, SETTINGS, BUFFERS, FORMAT JSON) " +:+ query in
  let eArgs := replicate (length args) any_nil in
  h <- history ;;
  emit (EvQueryRow eQuery eArgs) ;;;
  match pgx_QueryRow_Scan w h eQuery eArgs with
  | inl err => ret (inl (Errorf err))
  | inr result =>
      match result with
      | [] => panic index_out_of_range
      | result0 :: _ =>
          match pjson_Unmarshal_PostgreSQLExplain w result0 with
          | inl err => ret (inl (Errorf err))
          | inr explain =>
              ret (inr {| out_PostgreSQL := Some {| PostgreSQL_Explain := Some explain |};
                          out_MySQL := None |})
          end
      end
  end.

(** [mysqlExplainer.Explain] (lines 239-259) *)
Definition mysqlExplainer_Explain (w : World) (query : string) (args : list PluginParameter)
  : M (error + vetEngineOutput) :=
  let eQuery := "EXPLAIN FORMAT=JSON " +:+ query in
  let eArgs := replicate (length args) any_nil in
  h <- history ;;
  emit (EvQueryRowContext eQuery eArgs) ;;;
  match sql_QueryRowContext_Scan w h eQuery eArgs with
  | inl err => ret (inl (Errorf err))
  | inr result =>
      match pjson_Unmarshal_MySQLExplain w result with
      | inl err => ret (inl (Errorf err))
      | inr explain =>
          match MySQLExplain_QueryBlock explain with
          | None => panic nil_dereference
          | Some QueryBlock =>
              if negb (QueryBlock_Message QueryBlock =? "") then
                ret (inl (Errorf ("mysql explain: " +:+ QueryBlock_Message QueryBlock)))
              else
                ret (inr {| out_PostgreSQL := None;
                            out_MySQL := Some {| MySQL_Explain := Some explain |} |})
          end
      end
  end.

(** [expl.Explain(ctx, query, args...)] through the interface.  Every call
    is entered in the history once it is over, with whether it returned an
    output (a call that returns an error or panics did not). *)
Definition Explain (w : World) (e : explainer) (query : string) (args : list PluginParameter)
  : M (error + vetEngineOutput) :=
  fun st =>
    let '(r, st') :=
      match e with
      | pgxConn_e => pgxConn_Explain w query args st
      | mysqlExplainer => mysqlExplainer_Explain w query args st
      end in
    let ok := match r with Done (inr _) => true | _ => false end in
    (r, {| Stderr := Stderr st'; Log := Log st' ++ [EvExplain query (length args) ok] |}).

(** ** [checker] (line 268) and the projections (lines 458-480) *)

Record checker := {
  Rules : gmap string rule;
  NoDatabase : bool
}.

Definition vetConfig (settings : Settings) : VetConfig :=
  {| VetConfig_Version := Settings_Version settings;
     VetConfig_Engine := Settings_Engine settings;
     VetConfig_Schema := Settings_Schema settings;
     VetConfig_Queries := Settings_Queries settings |}.

Definition vetQuery (q : Query) : VetQuery :=
  let params :=
    map (fun p => {| VetParameter_Number := Parameter_Number p |}) (Query_Params q) in
  {| VetQuery_Sql := Query_Text q;
     VetQuery_Name := Query_Name q;
     VetQuery_Cmd := GoStrings.TrimPrefix ":" (Query_Cmd q);
     VetQuery_Params := params |}.

(** ** [checkSQL] (lines 289-456) *)

(** The variables the two loops of [checkSQL] update: the flag [errored]
    and the map [evalMap] of the current query. *)
Record loopState := { errored : bool; evalMap : gmap string EnvValue }.

Definition set_errored (ls : loopState) : loopState :=
  {| errored := true; evalMap := evalMap ls |}.

(** How a part of the body of the inner loop ends: it falls through to the
    next statement, it reaches [continue], or it returns from [checkSQL]. *)
Inductive flow : Type :=
| Proceed (ls : loopState)
| Continue (ls : loopState)
| Return (e : error).

(** [_, ok := m[key]] *)
Definition has_key (m : gmap string EnvValue) (key : string) : bool :=
  match m !! key with
  | Some _ => true
  | None => false
  end.

(** Lines 316-366: the connection of the group.  [db_Open] stands for
    [pgx.Connect] and [sql.Open], [db_Ping] for [Ping] and [PingContext];
    both failures are reported in the same words.  The return on a failed
    ping comes before the [defer] of [Close], so the connection that was
    opened is then left open.  The result also names the driver whose
    connection the deferred [Close] releases. *)
Definition connect (w : World) (c : checker) (s : SQL)
  : M (error + (option preparer * option explainer * option string)) :=
  match SQL_Database s with
  | None => ret (inr (None, None, None))
  | Some uri =>
      if NoDatabase c then
        ret (inl (Errorf "database: connections disabled via command line flag"))
      else
        let dburl := shfmt_Replace w uri in
        let open (driver : string) (prep : preparer) (expl : option explainer) :=
          match db_Open w driver dburl with
          | Some err => ret (inl (Errorf ("database: connection error: " +:+ err)))
          | None =>
              emit (EvOpen driver dburl) ;;;
              match db_Ping w driver dburl with
              | Some err => ret (inl (Errorf ("database: connection error: " +:+ err)))
              | None => ret (inr (Some prep, expl, Some driver))
              end
          end in
        if SQL_Engine s =? EnginePostgreSQL then
          open "pgx" pgxConn_p (Some pgxConn_e)
        else if SQL_Engine s =? EngineMySQL then
          open "mysql" dbPreparer (Some mysqlExplainer)
        else if SQL_Engine s =? EngineSQLite then
          open "sqlite3" dbPreparer None
        else
          ret (inl (Errorf ("unsupported database uri: " +:+ SQL_Engine s)))
  end.

(** Lines 390-407: the prepare block. *)
Definition prepareStep (w : World) (s : SQL) (prep : option preparer)
    (i : nat) (cq : CompiledQuery) (name : string) (rule : rule) (ls : loopState)
  : M flow :=
  let query := PQuery cq in
  if NeedsPrepare rule then
    match prep with
    | None =>
        Fprintf (Query_Filename query +:+ ": " +:+ Query_Name query +:+ ": " +:+ name
                 +:+ ": error preparing query: database connection required" +:+ nl) ;;;
        ret (Continue (set_errored ls))
    | Some prep =>
        if negb (prepareable s (RawStmt cq)) then
          Fprintf (Query_Filename query +:+ ": " +:+ Query_Name query +:+ ": " +:+ name
                   +:+ ": error preparing query: " +:+ "query type is unpreparable" +:+ nl) ;;;
          ret (Continue (set_errored ls))
        else
          h <- history ;;
          (* [name := ...] declares a new variable in the block *)
          let name := "sqlc_vet_" +:+ fmt_d (time_Now_Unix w h) +:+ "_"
                      +:+ fmt_d (Z.of_nat i) in
          err <- Prepare w prep name (Query_Text query) ;;
          match err with
          | Some err =>
              Fprintf (Query_Filename query +:+ ": " +:+ Query_Name query +:+ ": " +:+ name
                       +:+ ": error preparing query: " +:+ Error err +:+ nl) ;;;
              ret (Continue (set_errored ls))
          | None => ret (Proceed ls)
          end
    end
  else ret (Proceed ls).

(** Lines 414-431: the explain block. *)
Definition explainStep (w : World) (expl : option explainer)
    (cq : CompiledQuery) (name : string) (rule : rule) (ls : loopState)
  : M flow :=
  let query := PQuery cq in
  let pgsqlOK := has_key (evalMap ls) "postgresql" in
  let mysqlOK := has_key (evalMap ls) "mysql" in
  if NeedsExplain rule && negb (pgsqlOK || mysqlOK) then
    match expl with
    | None =>
        Fprintf (Query_Filename query +:+ ": " +:+ Query_Name query +:+ ": " +:+ name
                 +:+ ": error explaining query: database connection required" +:+ nl) ;;;
        ret (Continue (set_errored ls))
    | Some expl =>
        r <- Explain w expl (Query_Text query) (Query_Params query) ;;
        match r with
        | inl err =>
            Fprintf (Query_Filename query +:+ ": " +:+ Query_Name query +:+ ": " +:+ name
                     +:+ ": error explaining query: " +:+ Error err +:+ nl) ;;;
            ret (Continue (set_errored ls))
        | inr engineOutput =>
            ret (Proceed
                   {| errored := errored ls;
                      evalMap :=
                        <["mysql" := EnvMySQL (out_MySQL engineOutput)]>
                          (<["postgresql" := EnvPostgreSQL (out_PostgreSQL engineOutput)]>
                             (evalMap ls)) |})
        end
    end
  else ret (Proceed ls).

(** Lines 433-449: evaluation of the program and the report. *)
Definition evalStep (cq : CompiledQuery) (name : string) (rule : rule)
    (prg : Program) (ls : loopState) : M flow :=
  let query := PQuery cq in
  match prg (evalMap ls) with
  | inl err => ret (Return (Errorf err))
  | inr out =>
      match out with
      | VBool tripped =>
          if tripped then
            (if Message rule =? "" then
               Fprintf (Query_Filename query +:+ ": " +:+ Query_Name query +:+ ": "
                        +:+ name +:+ nl)
             else
               Fprintf (Query_Filename query +:+ ": " +:+ Query_Name query +:+ ": "
                        +:+ name +:+ ": " +:+ Message rule +:+ nl)) ;;;
            ret (Proceed (set_errored ls))
          else ret (Proceed ls)
      | _ => ret (Return (Errorf ("expression returned non-bool value: " +:+ fmt_v out)))
      end
  end.

(** Lines 385-449: the body of the loop over [s.Rules]. *)
Definition checkRule (w : World) (c : checker) (s : SQL)
    (prep : option preparer) (expl : option explainer)
    (i : nat) (cq : CompiledQuery) (name : string) (ls : loopState) : M flow :=
  match Rules c !! name with
  | None =>
      ret (Return (Errorf ("type-check error: a rule with the name '" +:+ name
                           +:+ "' does not exist")))
  | Some rule =>
      f <- prepareStep w s prep i cq name rule ls ;;
      match f with
      | Proceed ls =>
          match rule_Program rule with
          | None => ret (Continue ls)
          | Some prg =>
              f <- explainStep w expl cq name rule ls ;;
              match f with
              | Proceed ls => evalStep cq name rule prg ls
              | _ => ret f
              end
          end
      | _ => ret f
      end
  end.

(** Line 384: [for _, name := range s.Rules]. *)
Fixpoint checkRules (w : World) (c : checker) (s : SQL)
    (prep : option preparer) (expl : option explainer)
    (i : nat) (cq : CompiledQuery) (names : list string) (ls : loopState)
  : M (error + loopState) :=
  match names with
  | [] => ret (inr ls)
  | name :: names =>
      f <- checkRule w c s prep expl i cq name ls ;;
      match f with
      | Return e => ret (inl e)
      | Proceed ls | Continue ls => checkRules w c s prep expl i cq names ls
      end
  end.

(** Lines 379-382: the fresh map of a query. *)
Definition newEvalMap (cfg : VetConfig) (query : Query) : gmap string EnvValue :=
  <["config" := EnvConfig cfg]> (<["query" := EnvQuery (vetQuery query)]> ∅).

(** Line 371: [for i, query := range req.Queries].  The message that
    [log.Printf] writes for a skipped query when debugging is active goes
    to the logger of the process, not to [c.Stderr], and is not kept. *)
Fixpoint checkQueries (w : World) (c : checker) (s : SQL)
    (prep : option preparer) (expl : option explainer) (cfg : VetConfig)
    (i : nat) (queries : list CompiledQuery) (errored : bool) : M (error + bool) :=
  match queries with
  | [] => ret (inr errored)
  | cq :: queries =>
      if default false (Flags cq !! QueryFlagSqlcVetDisable) then
        checkQueries w c s prep expl cfg (S i) queries errored
      else
        r <- checkRules w c s prep expl i cq (SQL_Rules s)
               {| errored := errored; evalMap := newEvalMap cfg (PQuery cq) |} ;;
        match r with
        | inl e => ret (inl e)
        | inr {| errored := errored |} =>
            checkQueries w c s prep expl cfg (S i) queries errored
        end
  end.

Definition close (driver : option string) : M unit :=
  match driver with
  | Some d => emit (EvClose d)
  | None => ret tt
  end.

(** [checkSQL]; [None] is the [nil] error. *)
Definition checkSQL (w : World) (c : checker) (s : SQL) : M (option error) :=
  match parse w s with
  | None => ret (Some ErrFailedChecks)
  | Some result =>
      conn <- connect w c s ;;
      match conn with
      | inl err => ret (Some err)
      | inr (prep, expl, driver) =>
          defer (close driver)
            (r <- checkQueries w c s prep expl (vetConfig (Result_Settings result))
                   0 (Result_Queries result) false ;;
             match r with
             | inl err => ret (Some err)
             | inr errored => if errored then ret (Some ErrFailedChecks) else ret None
             end)
      end
  end.

(** ** [Vet] (lines 59-158) *)

(** Lines 106-134: the loop over [conf.Rules].  [cel_Compile] gives the
    issues of [env.Compile], [cel_Program] the result of [env.Program] on
    the checked expression. *)
Fixpoint compileRules (w : World) (defs : list RuleDef) (rules : gmap string rule)
  : error + gmap string rule :=
  match defs with
  | [] => inr rules
  | c :: defs =>
      if Rule_Name c =? "" then inl (Errorf "rules require a name")
      else
        match rules !! Rule_Name c with
        | Some _ =>
            inl (Errorf ("type-check error: a rule with the name '" +:+ Rule_Name c
                         +:+ "' already exists"))
        | None =>
            if Rule_Rule c =? "" then
              inl (Errorf ("type-check error: " +:+ Rule_Name c +:+ " is empty"))
            else
              match cel_Compile w (Rule_Rule c) with
              | Some issues =>
                  inl (Errorf ("type-check error: " +:+ Rule_Name c +:+ " " +:+ issues))
              | None =>
                  match cel_Program w (Rule_Rule c) with
                  | inl err =>
                      inl (Errorf ("program construction error: " +:+ Rule_Name c
                                   +:+ " " +:+ err))
                  | inr prg =>
                      let rule := {| rule_Program := Some prg; Message := Rule_Msg c;
                                     NeedsPrepare := false; NeedsExplain := false |} in
                      let rule :=
                        if GoStrings.Contains (Rule_Rule c) "postgresql.explain" ||
                           GoStrings.Contains (Rule_Rule c) "mysql.explain"
                        then {| rule_Program := rule_Program rule; Message := Message rule;
                                NeedsPrepare := NeedsPrepare rule; NeedsExplain := true |}
                        else rule in
                      compileRules w defs (<[Rule_Name c := rule]> rules)
                  end
              end
        end
  end.

(** Lines 102-104: the rule set before the configured rules are added. *)
Definition builtinRules : gmap string rule :=
  {[ RuleDbPrepare := {| rule_Program := None; Message := "";
                         NeedsPrepare := true; NeedsExplain := false |} ]}.

(** Lines 145-153: the loop over [conf.SQL]. *)
Fixpoint vetGroups (w : World) (c : checker) (sqls : list SQL) (errored : bool) : M bool :=
  match sqls with
  | [] => ret errored
  | sql :: sqls =>
      r <- checkSQL w c sql ;;
      match r with
      | Some err =>
          (if negb (is_ErrFailedChecks err) then Fprintf (Error err +:+ nl) else ret tt) ;;;
          vetGroups w c sqls true
      | None => vetGroups w c sqls errored
      end
  end.

(** [Vet], from line 102 on: the configuration [conf] has been read and
    validated and the CEL environment built.  [noDatabase] is
    [e.NoDatabase]. *)
Definition Vet (w : World) (noDatabase : bool) (conf : Config) : M (option error) :=
  match compileRules w (Conf_Rules conf) builtinRules with
  | inl err => ret (Some err)
  | inr rules =>
      let c := {| Rules := rules; NoDatabase := noDatabase |} in
      errored <- vetGroups w c (Conf_SQL conf) false ;;
      if errored then ret (Some ErrFailedChecks) else ret None
  end.

(** The [RunE] closure of [NewCmdVet] (lines 44-55): the exit status of the
    process, [0] when the closure returns [nil]. *)
Definition RunE (w : World) (noDatabase : bool) (conf : Config) : M Z :=
  err <- Vet w noDatabase conf ;;
  match err with
  | Some err =>
      (if negb (is_ErrFailedChecks err) then Fprintf (Error err +:+ nl) else ret tt) ;;;
      ret 1%Z
  | None => ret 0%Z
  end.

Definition st0 : State := {| Stderr := []; Log := [] |}.

(** ** Concrete rules, queries and databases

    The inputs at which the theorems below are exercised.  A CEL program is
    given by what the expression denotes on the evaluation environment. *)

Module Sample.

Definition dq : string := String (ascii_of_nat 34) EmptyString.

Definition get_query (env : gmap string EnvValue) : option VetQuery :=
  match env !! "query" with
  | Some (EnvQuery q) => Some q
  | _ => None
  end.

Definition get_plan_rows (env : gmap string EnvValue) : Z :=
  match env !! "postgresql" with
  | Some (EnvPostgreSQL (Some {| PostgreSQL_Explain :=
      Some {| PostgreSQLExplain_Plan := Some p |} |})) => Plan_PlanRows p
  | _ => 0
  end.

Definition get_select_id (env : gmap string EnvValue) : Z :=
  match env !! "mysql" with
  | Some (EnvMySQL (Some {| MySQL_Explain :=
      Some {| MySQLExplain_QueryBlock := Some b |} |})) => QueryBlock_SelectId b
  | _ => 0
  end.

Definition on_query (f : VetQuery -> Val) : Program :=
  fun env =>
    match get_query env with
    | Some q => inr (f q)
    | None => inl "no such attribute: query"
    end.

(** [query.cmd == ":many" && !query.sql.contains("LIMIT")] *)
Definition needs_limit_src : string :=
  "query.cmd == " +:+ dq +:+ ":many" +:+ dq +:+ " && !query.sql.contains("
  +:+ dq +:+ "LIMIT" +:+ dq +:+ ")".
Definition needs_limit : Program :=
  on_query (fun q => VBool ((VetQuery_Cmd q =? ":many")
                            && negb (GoStrings.Contains (VetQuery_Sql q) "LIMIT"))).

(** [query.sql.contains("*")] *)
Definition no_select_star_src : string :=
  "query.sql.contains(" +:+ dq +:+ "*" +:+ dq +:+ ")".
Definition no_select_star : Program :=
  on_query (fun q => VBool (GoStrings.Contains (VetQuery_Sql q) "*")).

(** [query.params.size()], which is a number *)
Definition params_size_src : string := "query.params.size()".
Definition params_size : Program :=
  on_query (fun q => VInt (Z.of_nat (length (VetQuery_Params q)))).

(** [postgresql.explain.plan.plan_rows > 1000u]; the field is a [uint64],
    which CEL compares with an unsigned literal only *)
Definition many_rows_src : string := "postgresql.explain.plan.plan_rows > 1000u".
Definition many_rows : Program :=
  fun env => inr (VBool (1000 <? get_plan_rows env)%Z).

(** [postgresql.explain.plan.plan_rows > 1000000u] *)
Definition huge_rows_src : string := "postgresql.explain.plan.plan_rows > 1000000u".
Definition huge_rows : Program :=
  fun env => inr (VBool (1000000 <? get_plan_rows env)%Z).

(** [mysql.explain.query_block.select_id > 1u], on a [uint64] field too *)
Definition subselect_src : string := "mysql.explain.query_block.select_id > 1u".
Definition subselect : Program :=
  fun env => inr (VBool (1 <? get_select_id env)%Z).

Definition cel (src : string) : string + Program :=
  if src =? needs_limit_src then inr needs_limit
  else if src =? no_select_star_src then inr no_select_star
  else if src =? params_size_src then inr params_size
  else if src =? many_rows_src then inr many_rows
  else if src =? huge_rows_src then inr huge_rows
  else if src =? subselect_src then inr subselect
  else inl "unsupported expression".

Definition mkQuery (name cmd text : string) (nparams : nat) : Query :=
  {| Query_Text := text; Query_Name := name; Query_Cmd := cmd;
     Query_Params :=
       map (fun n => {| Parameter_Number := Z.of_nat n; Parameter_Column := None |})
           (seq 1 nparams);
     Query_Filename := "query.sql" |}.

Definition compiled (raw : Stmt) (q : Query) : CompiledQuery :=
  {| Flags := ∅; RawStmt := raw; PQuery := q |}.

Definition GetUser : CompiledQuery :=
  compiled SelectStmt (mkQuery "GetUser" ":one" "SELECT id FROM users WHERE id = $1" 1).
Definition ListUsers : CompiledQuery :=
  compiled SelectStmt (mkQuery "ListUsers" ":many" "SELECT id FROM users" 0).
Definition ListAll : CompiledQuery :=
  compiled SelectStmt (mkQuery "ListAll" ":many" "SELECT * FROM users" 0).
Definition FirstUser : CompiledQuery :=
  compiled SelectStmt (mkQuery "FirstUser" ":one" "SELECT id FROM users LIMIT 1" 0).
Definition Vacuum : CompiledQuery :=
  compiled (OtherStmt "VacuumStmt") (mkQuery "Vacuum" ":exec" "VACUUM users" 0).

Definition settings (engine : string) : Settings :=
  {| Settings_Version := "2"; Settings_Engine := engine;
     Settings_Schema := ["schema.sql"]; Settings_Queries := ["query.sql"] |}.

(** A world: every group parses to [queries]; [prepare_error] and
    [explain_error] are what the database answers to every prepare and
    explain statement. *)
Definition world (queries : SQL -> list CompiledQuery)
    (prepare_error explain_error : option string) : World :=
  {| parse := fun s =>
       Some {| Result_Queries := queries s; Result_Settings := settings (SQL_Engine s) |};
     shfmt_Replace := fun dsn => dsn;
     time_Now_Unix := fun _ => 1700000000%Z;
     db_Open := fun _ _ => None;
     db_Ping := fun _ _ => None;
     pgx_Prepare := fun _ _ _ => prepare_error;
     pgx_QueryRow_Scan := fun _ _ _ =>
       match explain_error with Some e => inl e | None => inr ["{}"] end;
     sql_PrepareContext := fun _ _ => prepare_error;
     sql_QueryRowContext_Scan := fun _ _ _ =>
       match explain_error with Some e => inl e | None => inr "{}" end;
     pjson_Unmarshal_PostgreSQLExplain := fun _ =>
       inr {| PostgreSQLExplain_Plan :=
                Some {| Plan_NodeType := "Seq Scan"; Plan_RelationName := "users";
                        Plan_PlanRows := 5000 |} |};
     pjson_Unmarshal_MySQLExplain := fun _ =>
       inr {| MySQLExplain_QueryBlock :=
                Some {| QueryBlock_SelectId := 1; QueryBlock_Message := "" |} |};
     cel_Compile := fun src =>
       match cel src with inl e => Some e | inr _ => None end;
     cel_Program := cel |}.

Definition group (engine : string) (db : option string) (rules : list string) : SQL :=
  {| SQL_Engine := engine; SQL_Database := db; SQL_Rules := rules |}.

Definition def (name src msg : string) : RuleDef :=
  {| Rule_Name := name; Rule_Rule := src; Rule_Msg := msg |}.

(** Compiled rules, as [Vet] builds them from the definitions above. *)
Definition compiled_rule (prg : Program) (msg : string) (needsExplain : bool) : rule :=
  {| rule_Program := Some prg; Message := msg;
     NeedsPrepare := false; NeedsExplain := needsExplain |}.

Definition star_rule : rule := compiled_rule no_select_star "avoid select *" false.
Definition size_rule : rule := compiled_rule params_size "" false.
Definition many_rule : rule := compiled_rule many_rows "" true.
Definition huge_rule : rule := compiled_rule huge_rows "" true.

Definition checker_of (rules : list (string * rule)) (noDatabase : bool) : checker :=
  {| Rules := foldl (fun m kr => <[fst kr := snd kr]> m) builtinRules rules;
     NoDatabase := noDatabase |}.

Definition fresh (errd : bool) (engine : string) (cq : CompiledQuery) : loopState :=
  {| errored := errd; evalMap := newEvalMap (vetConfig (settings engine)) (PQuery cq) |}.

(** [w] with a server that accepts the connection and then fails the ping
    with [e]. *)
Definition failing_ping (w : World) (e : string) : World :=
  {| parse := parse w;
     shfmt_Replace := shfmt_Replace w;
     time_Now_Unix := time_Now_Unix w;
     db_Open := db_Open w;
     db_Ping := fun _ _ => Some e;
     pgx_Prepare := pgx_Prepare w;
     pgx_QueryRow_Scan := pgx_QueryRow_Scan w;
     sql_PrepareContext := sql_PrepareContext w;
     sql_QueryRowContext_Scan := sql_QueryRowContext_Scan w;
     pjson_Unmarshal_PostgreSQLExplain := pjson_Unmarshal_PostgreSQLExplain w;
     pjson_Unmarshal_MySQLExplain := pjson_Unmarshal_MySQLExplain w;
     cel_Compile := cel_Compile w;
     cel_Program := cel_Program w |}.

End Sample.

(** ** [checker.DSN] (lines 278-287) *)

(** [strings.Cut(s, sep)]: [s] around the first occurrence of [sep], or
    [(s, "", false)] when [sep] does not occur. *)
Fixpoint strings_Cut (s sep : string) : string * string * bool :=
  if GoStrings.HasPrefix s sep then
    (EmptyString, GoStrings.drop (String.length sep) s, true)
  else
    match s with
    | EmptyString => (s, EmptyString, false)
    | String a s' =>
        match strings_Cut s' sep with
        | (before, after, true) => (String a before, after, true)
        | (_, _, false) => (s, EmptyString, false)
        end
    end.

(** The loop of lines 281-284 over [os.Environ()]. *)
Definition populateEnvmap (environ : list string) (Envmap : gmap string string)
  : gmap string string :=
  foldl (fun m e => match strings_Cut e "=" with
                    | (k, v, _) => <[k := v]> m
                    end) Envmap environ.

(** [DSN]: the result of [shfmt.Replace], here a function [Replace] of the
    text and the map, and the map [c.Envmap] as the call leaves it.
    [environ] is what [os.Environ()] returns at the time of the call. *)
Definition DSN (Replace : string -> gmap string string -> string)
    (environ : list string) (Envmap : gmap string string) (dsn : string)
  : string * gmap string string :=
  let Envmap := if Nat.eqb (size Envmap) 0 then populateEnvmap environ Envmap else Envmap in
  (Replace dsn Envmap, Envmap).

(** ** Vocabulary of the statements *)

(** [sub] occurs in [s]. *)
Definition substring_of (sub s : string) : Prop :=
  exists pre post, s = pre +:+ sub +:+ post.

(** The rule asks for the database: it is to be prepared, or it has a
    program that reads the explain output. *)
Definition needsDatabase (r : rule) : bool :=
  NeedsPrepare r ||
  (NeedsExplain r && match rule_Program r with Some _ => true | None => false end).

(** The line written for a rule that asks for a database the group does
    not have. *)
Definition noDatabaseLine (cq : CompiledQuery) (name : string) (r : rule) : string :=
  Query_Filename (PQuery cq) +:+ ": " +:+ Query_Name (PQuery cq) +:+ ": " +:+ name
  +:+ (if NeedsPrepare r then ": error preparing query: database connection required"
       else ": error explaining query: database connection required")
  +:+ nl.

(** The evaluation environment holds an explain output. *)
Definition explainBound (m : gmap string EnvValue) : bool :=
  has_key m "postgresql" || has_key m "mysql".

(** The outcomes of the [Explain] calls of a history, oldest first. *)
Fixpoint explainResults (log : list Event) : list bool :=
  match log with
  | [] => []
  | EvExplain _ _ ok :: log => ok :: explainResults log
  | _ :: log => explainResults log
  end.

(** The statement name of line 401, from the clock and the index of the
    query. *)
Definition stmtName (unix : Z) (i : nat) : string :=
  "sqlc_vet_" +:+ fmt_d unix +:+ "_" +:+ fmt_d (Z.of_nat i).

(** The openings and closings of connections in a history. *)
Fixpoint connTrace (log : list Event) : list Event :=
  match log with
  | [] => []
  | EvOpen driver url :: log => EvOpen driver url :: connTrace log
  | EvClose driver :: log => EvClose driver :: connTrace log
  | _ :: log => connTrace log
  end.

(** A line of the error stream about the query [q]: it begins with the
    file and the name of the query and ends the line. *)
Definition diagLine (q : Query) (line : string) : Prop :=
  exists rest, line = Query_Filename q +:+ ": " +:+ Query_Name q +:+ ": " +:+ rest +:+ nl.

(** The byte [c] does not occur in [s]. *)
Fixpoint lacks (c : ascii) (s : string) : bool :=
  match s with
  | EmptyString => true
  | String a s' => negb (Ascii.eqb a c) && lacks c s'
  end.

(** The key of an entry of the environment. *)
Definition envKey (e : string) : string := fst (fst (strings_Cut e "=")).

(** The rule that the loop of lines 106-134 stores for the definition [d]
    whose program is [prg]. *)
Definition ruleOf (d : RuleDef) (prg : Program) : rule :=
  {| rule_Program := Some prg; Message := Rule_Msg d; NeedsPrepare := false;
     NeedsExplain := GoStrings.Contains (Rule_Rule d) "postgresql.explain"
                     || GoStrings.Contains (Rule_Rule d) "mysql.explain" |}.

(** The definition [d] passes every check of the loop but the one on
    duplicate names. *)
Definition wellFormedDef (w : World) (d : RuleDef) : Prop :=
  Rule_Name d <> EmptyString /\ Rule_Rule d <> EmptyString /\
  cel_Compile w (Rule_Rule d) = None /\
  exists prg, cel_Program w (Rule_Rule d) = inr prg.

(** The state [st] after [lines] have been written to the error stream and
    the calls [evs] made. *)
Definition grow (st : State) (lines : list string) (evs : list Event) : State :=
  {| Stderr := Stderr st ++ lines; Log := Log st ++ evs |}.

(** * Theorems *)

(** ** Substrings *)

Lemma HasPrefix_spec (prefix s : string) :
  GoStrings.HasPrefix s prefix = true <-> exists post, s = prefix +:+ post.
Proof.
  revert s. induction prefix as [|a prefix IH]; intros s; simpl.
  - split; [intros _; exists s; reflexivity | reflexivity].
  - destruct s as [|b s].
    + split; [discriminate | intros [post H]; discriminate].
    + rewrite andb_true_iff, IH. split.
      * intros [Hab [post ->]]. apply Ascii.eqb_eq in Hab as ->. exists post. reflexivity.
      * intros [post H]. injection H as -> ->. split; [apply Ascii.eqb_refl | eauto].
Qed.

Lemma Contains_spec (sub s : string) :
  GoStrings.Contains s sub = true <-> substring_of sub s.
Proof.
  unfold substring_of. induction s as [|a s IH]; simpl.
  - rewrite orb_false_r, HasPrefix_spec. split.
    + intros [post H]. exists "", post. exact H.
    + intros [pre [post H]]. destruct pre; [exists post; exact H | discriminate].
  - rewrite orb_true_iff, HasPrefix_spec, IH. split.
    + intros [[post H] | [pre [post H]]].
      * exists "", post. exact H.
      * exists (String a pre), post. rewrite H. reflexivity.
    + intros [pre [post H]]. destruct pre as [|b pre]; simpl in H.
      * left. exists post. exact H.
      * right. injection H as _ H. exists pre, post. exact H.
Qed.

(** ** The rule compiler *)

Lemma compileRules_keeps (w : World) (defs : list RuleDef) :
  forall (rules0 rules : gmap string rule) (k : string) (r : rule),
    compileRules w defs rules0 = inr rules ->
    rules0 !! k = Some r -> rules !! k = Some r.
Proof.
  induction defs as [|c defs IH]; intros rules0 rules k r; simpl.
  - intros [= <-]. auto.
  - destruct (Rule_Name c =? ""); [discriminate|].
    destruct (rules0 !! Rule_Name c) eqn:Hfree; [discriminate|].
    destruct (Rule_Rule c =? ""); [discriminate|].
    destruct (cel_Compile w (Rule_Rule c)); [discriminate|].
    destruct (cel_Program w (Rule_Rule c)) as [|prg]; [discriminate|].
    intros Hc Hk. apply (IH _ _ _ _ Hc).
    rewrite lookup_insert_ne; [exact Hk | congruence].
Qed.

Lemma compileRules_flag (w : World) (defs : list RuleDef) :
  forall (rules0 rules : gmap string rule) (d : RuleDef),
    compileRules w defs rules0 = inr rules ->
    In d defs ->
    exists r, rules !! Rule_Name d = Some r /\
      NeedsExplain r = GoStrings.Contains (Rule_Rule d) "postgresql.explain"
                       || GoStrings.Contains (Rule_Rule d) "mysql.explain".
Proof.
  induction defs as [|c defs IH]; intros rules0 rules d; simpl; [tauto|].
  destruct (Rule_Name c =? ""); [discriminate|].
  destruct (rules0 !! Rule_Name c) eqn:Hfree; [discriminate|].
  destruct (Rule_Rule c =? ""); [discriminate|].
  destruct (cel_Compile w (Rule_Rule c)); [discriminate|].
  destruct (cel_Program w (Rule_Rule c)) as [|prg]; [discriminate|].
  intros Hc [-> | Hin]; [|exact (IH _ _ _ Hc Hin)].
  eexists. split.
  - apply (compileRules_keeps _ _ _ _ _ _ Hc). apply lookup_insert_eq.
  - destruct (GoStrings.Contains (Rule_Rule d) "postgresql.explain"
              || GoStrings.Contains (Rule_Rule d) "mysql.explain"); reflexivity.
Qed.

(** C4, counterexample: the rule [mysql.explain.query_block.select_id > 1u]
    compiles, its source text does not contain [postgresql.explain], and
    its compiled form has [NeedsExplain] set. *)
Lemma C4_counterexample_mysql_accessor :
  let w := Sample.world (fun _ => []) None None in
  let d := Sample.def "sub" Sample.subselect_src "" in
  GoStrings.Contains (Rule_Rule d) "postgresql.explain" = false /\
  exists rules r,
    compileRules w [d] builtinRules = inr rules /\
    rules !! Rule_Name d = Some r /\
    NeedsExplain r = true.
Proof.
  split; [reflexivity|].
  destruct (compileRules (Sample.world (fun _ => []) None None)
              [Sample.def "sub" Sample.subselect_src ""] builtinRules)
    as [e|rules] eqn:Hc; [vm_compute in Hc; discriminate|].
  destruct (compileRules_flag _ _ _ _ (Sample.def "sub" Sample.subselect_src "") Hc)
    as [r [Hr Hflag]]; [left; reflexivity|].
  exists rules, r. repeat split; [exact Hr | rewrite Hflag; reflexivity].
Qed.

(** C4 (amended): when the configured rules compile, the rule stored under
    the name of each definition has [NeedsExplain] set exactly when the
    source text of its expression contains [postgresql.explain] or
    [mysql.explain]; and [Vet] hands this one rule map, as compiled, to the
    check of every group. *)
Theorem C4_needs_explain_iff_explain_accessor_in_text
    (w : World) (noDatabase : bool) (conf : Config)
    (rules : gmap string rule) (d : RuleDef) :
  compileRules w (Conf_Rules conf) builtinRules = inr rules ->
  In d (Conf_Rules conf) ->
  (exists r, rules !! Rule_Name d = Some r /\
     (NeedsExplain r = true <->
        substring_of "postgresql.explain" (Rule_Rule d) \/
        substring_of "mysql.explain" (Rule_Rule d))) /\
  Vet w noDatabase conf =
    (errored <- vetGroups w {| Rules := rules; NoDatabase := noDatabase |}
                  (Conf_SQL conf) false ;;
     if errored then ret (Some ErrFailedChecks) else ret None).
Proof.
  intros Hc Hin. split.
  - destruct (compileRules_flag _ _ _ _ _ Hc Hin) as [r [Hr Hflag]].
    exists r. split; [exact Hr|].
    rewrite Hflag, orb_true_iff, !Contains_spec. reflexivity.
  - unfold Vet. rewrite Hc. reflexivity.
Qed.

Lemma C4_witness_two_rules :
  exists r,
    (<["star" := {| rule_Program := Some Sample.no_select_star;
                    Message := "avoid select *";
                    NeedsPrepare := false; NeedsExplain := false |}]>
       (<["many" := {| rule_Program := Some Sample.many_rows; Message := "";
                       NeedsPrepare := false; NeedsExplain := true |}]>
          builtinRules)) !! "star" = Some r /\
    (NeedsExplain r = true <->
       substring_of "postgresql.explain" Sample.no_select_star_src \/
       substring_of "mysql.explain" Sample.no_select_star_src).
Proof.
  refine (proj1 (C4_needs_explain_iff_explain_accessor_in_text
                   (Sample.world (fun _ => []) None None) false
                   {| Conf_Rules := [Sample.def "many" Sample.many_rows_src "";
                                     Sample.def "star" Sample.no_select_star_src
                                       "avoid select *"];
                      Conf_SQL := [] |}
                   _ (Sample.def "star" Sample.no_select_star_src "avoid select *") _ _)).
  - vm_compute. reflexivity.
  - simpl. auto.
Defined.

(** ** The capability providers *)

(** What the two [Explain] adapters add to the call history. *)
Lemma pgxConn_Explain_log
    (w : World) (query : string) (args : list PluginParameter) (st : State) :
  Log (snd (pgxConn_Explain w query args st)) =
    Log st ++ [EvQueryRow
                 ("EXPLAIN (ANALYZE false, VERBOSE, COSTS, SETTINGS, BUFFERS, FORMAT JSON) "
                  +:+ query) (replicate (length args) any_nil)].
Proof.
  unfold pgxConn_Explain, bind, history, emit, ret, panic. cbn [Log snd].
  destruct (pgx_QueryRow_Scan w (Log st) _ _) as [err|[|result0 result]];
    try reflexivity.
  destruct (pjson_Unmarshal_PostgreSQLExplain w result0); reflexivity.
Qed.

Lemma mysqlExplainer_Explain_log
    (w : World) (query : string) (args : list PluginParameter) (st : State) :
  Log (snd (mysqlExplainer_Explain w query args st)) =
    Log st ++ [EvQueryRowContext ("EXPLAIN FORMAT=JSON " +:+ query)
                 (replicate (length args) any_nil)].
Proof.
  unfold mysqlExplainer_Explain, bind, history, emit, ret, panic. cbn [Log snd].
  destruct (sql_QueryRowContext_Scan w (Log st) _ _) as [err|result];
    try reflexivity.
  destruct (pjson_Unmarshal_MySQLExplain w result) as [err|explain];
    try reflexivity.
  destruct (MySQLExplain_QueryBlock explain) as [block|]; try reflexivity.
  destruct (negb _); reflexivity.
Qed.


(** On the [database/sql] adapter a failing [PrepareContext] makes
    [Prepare] panic: [Close] is called on the [nil] statement. *)
Lemma dbPreparer_Prepare_error_panics
    (w : World) (name query err : string) (st : State) :
  sql_PrepareContext w (Log st) query = Some err ->
  fst (dbPreparer_Prepare w name query st) = Panic nil_dereference.
Proof.
  intros H. unfold dbPreparer_Prepare, PrepareContext, bind, history, emit, ret.
  cbn. rewrite H. reflexivity.
Qed.

(** C1, at the failing input: a MySQL group with a database, the rule
    [sqlc/db-prepare] and one query whose preparation the server refuses.
    The run panics; nothing has been reported for the pair. *)
Theorem C1_mysql_prepare_error_panics :
  RunE (Sample.world (fun _ => [Sample.ListUsers])
          (Some "Error 1146: Table db.users does not exist") None)
       false
       {| Conf_Rules := [];
          Conf_SQL := [Sample.group EngineMySQL (Some "root@/db") [RuleDbPrepare]] |}
       st0
  = (Panic nil_dereference,
     {| Stderr := [];
        Log := [EvOpen "mysql" "root@/db";
                EvPrepareContext "SELECT id FROM users";
                EvClose "mysql"] |}).
Proof. vm_compute. reflexivity. Qed.

(** ** The projection of a query *)

(** [vetQuery] trims the command kind off the string [":"], not the colon
    off the command kind: unless the kind is [":"] itself, [cmd] is [":"]. *)
Lemma vetQuery_Cmd_colon (q : Query) :
  Query_Cmd q <> ":" -> VetQuery_Cmd (vetQuery q) = ":".
Proof.
  intros H. unfold vetQuery; cbn [VetQuery_Cmd]. unfold GoStrings.TrimPrefix.
  destruct (Query_Cmd q) as [|a [|b cmd]]; cbn.
  - reflexivity.
  - destruct (Ascii.eqb_spec a ":"%char) as [->|Hne]; [congruence|].
    destruct (Ascii.eqb a ":"%char) eqn:E; [apply Ascii.eqb_eq in E; congruence|reflexivity].
  - rewrite andb_false_r. reflexivity.
Qed.

(** With [cmd] fixed to [":"] the program of [needs-limit] is false on the
    projection of every query. *)
Lemma needs_limit_never_trips (cfg : VetConfig) (q : Query) :
  Query_Cmd q <> ":" ->
  Sample.needs_limit (newEvalMap cfg q) = inr (VBool false).
Proof.
  intros H. unfold Sample.needs_limit, Sample.on_query, Sample.get_query, newEvalMap.
  rewrite lookup_insert_ne by discriminate. rewrite lookup_insert_eq.
  rewrite (vetQuery_Cmd_colon q H). reflexivity.
Qed.

(** C5, at the failing input: the rule [needs-limit] against the [:many]
    query [SELECT id FROM users].  The projection carries [cmd = ":"], the
    expression is false, and the run ends in success with nothing
    reported. *)
Theorem C5_many_query_without_limit_not_reported :
  Query_Cmd (PQuery Sample.ListUsers) = ":many" /\
  GoStrings.Contains (Query_Text (PQuery Sample.ListUsers)) "LIMIT" = false /\
  VetQuery_Cmd (vetQuery (PQuery Sample.ListUsers)) = ":" /\
  RunE (Sample.world (fun _ => [Sample.ListUsers]) None None) false
       {| Conf_Rules := [Sample.def "needs-limit" Sample.needs_limit_src ""];
          Conf_SQL := [Sample.group EnginePostgreSQL None ["needs-limit"]] |}
       st0
  = (Done 0%Z, st0).
Proof. repeat split; vm_compute; reflexivity. Qed.

(** ** Diagnostics *)

(** C9, at the failing input: a PostgreSQL group with a database, the rule
    [sqlc/db-prepare] and one query whose preparation fails.  The third
    field of the line written is the name of the prepared statement, not
    the name of the rule. *)
Theorem C9_prepare_error_line_names_the_statement :
  Stderr (snd (RunE (Sample.world (fun _ => [Sample.GetUser])
                       (Some "ERROR: relation users does not exist") None)
                    false
                    {| Conf_Rules := [];
                       Conf_SQL := [Sample.group EnginePostgreSQL
                                      (Some "postgres://localhost/db") [RuleDbPrepare]] |}
                    st0))
  = ["query.sql" +:+ ": " +:+ "GetUser" +:+ ": " +:+ "sqlc_vet_1700000000_0"
     +:+ ": error preparing query: " +:+ "ERROR: relation users does not exist" +:+ nl]
  /\ "sqlc_vet_1700000000_0" <> RuleDbPrepare.
Proof. split; [vm_compute; reflexivity | discriminate]. Qed.

(** ** The loops of [checkSQL] and [Vet] *)

Section Loops.

Variables (w : World) (c : checker) (s : SQL).
Variables (prep : option preparer) (expl : option explainer).

(** The rule loop over a concatenation: the second part runs from where
    the first part ends, unless the first part returned or panicked. *)
Lemma checkRules_app (i : nat) (cq : CompiledQuery) (pre post : list string) :
  forall (ls : loopState) (st : State),
    checkRules w c s prep expl i cq (pre ++ post) ls st =
      match checkRules w c s prep expl i cq pre ls st with
      | (Done (inr ls'), st') => checkRules w c s prep expl i cq post ls' st'
      | other => other
      end.
Proof.
  induction pre as [|name pre IH]; intros ls st; [reflexivity|].
  cbn [app checkRules]. unfold bind.
  destruct (checkRule w c s prep expl i cq name ls st) as [[[ls'|ls'|e]|msg] st'];
    try reflexivity; apply IH.
Qed.

Lemma checkRule_unknown (i : nat) (cq : CompiledQuery) (name : string)
    (ls : loopState) (st : State) :
  Rules c !! name = None ->
  checkRule w c s prep expl i cq name ls st =
    (Done (Return (Errorf ("type-check error: a rule with the name '" +:+ name
                           +:+ "' does not exist"))), st).
Proof. intros H. unfold checkRule. rewrite H. reflexivity. Qed.

(** A query carrying the disable flag is passed over. *)
Lemma checkQueries_all_disabled (cfg : VetConfig) (queries : list CompiledQuery) :
  Forall (fun cq => default false (Flags cq !! QueryFlagSqlcVetDisable) = true) queries ->
  forall (i : nat) (errd : bool) (st : State),
    checkQueries w c s prep expl cfg i queries errd st = (Done (inr errd), st).
Proof.
  induction 1 as [|cq queries Hcq _ IH]; intros i errd st; [reflexivity|].
  cbn [checkQueries]. rewrite Hcq. apply IH.
Qed.

(** An error returned by the rule loop of a query is returned by the
    query loop as it is; the queries that follow are not looked at. *)
Lemma checkQueries_rules_error (cfg : VetConfig) (i : nat) (cq : CompiledQuery)
    (queries : list CompiledQuery) (errd : bool) (st st' : State) (e : error) :
  default false (Flags cq !! QueryFlagSqlcVetDisable) = false ->
  checkRules w c s prep expl i cq (SQL_Rules s)
    {| errored := errd; evalMap := newEvalMap cfg (PQuery cq) |} st
    = (Done (inl e), st') ->
  checkQueries w c s prep expl cfg i (cq :: queries) errd st = (Done (inl e), st').
Proof.
  intros Hflag Hrules. cbn [checkQueries]. rewrite Hflag.
  unfold bind. rewrite Hrules. reflexivity.
Qed.

End Loops.

(** [Vet] prints an error of a group that is not [ErrFailedChecks], sets
    its flag and goes on with the next group. *)
Lemma vetGroups_group_error (w : World) (c : checker) (s : SQL) (sqls : list SQL)
    (errd : bool) (msg : string) (stA stB : State) :
  checkSQL w c s stA = (Done (Some (Errorf msg)), stB) ->
  vetGroups w c (s :: sqls) errd stA =
    vetGroups w c sqls true {| Stderr := Stderr stB ++ [msg +:+ nl]; Log := Log stB |}.
Proof.
  intros H. cbn [vetGroups]. unfold bind at 1. rewrite H. reflexivity.
Qed.

(** Once the flag of [Vet] is set it stays set. *)
Lemma vetGroups_flag_stays (w : World) (c : checker) (sqls : list SQL) :
  forall (st st' : State) (r : bool),
    vetGroups w c sqls true st = (Done r, st') -> r = true.
Proof.
  induction sqls as [|s sqls IH]; intros st st' r; cbn [vetGroups].
  - intros [= <- _]. reflexivity.
  - unfold bind at 1.
    destruct (checkSQL w c s st) as [[[err|]|msg] st1]; [| |discriminate].
    + unfold bind. destruct (negb (is_ErrFailedChecks err)); cbn; apply IH.
    + apply IH.
Qed.

(** The query loop over a concatenation; the index goes on counting. *)
Lemma checkQueries_app (w : World) (c : checker) (s : SQL)
    (prep : option preparer) (expl : option explainer) (cfg : VetConfig)
    (qs1 qs2 : list CompiledQuery) :
  forall (i : nat) (errd : bool) (st : State),
    checkQueries w c s prep expl cfg i (qs1 ++ qs2) errd st =
      match checkQueries w c s prep expl cfg i qs1 errd st with
      | (Done (inr errd'), st') =>
          checkQueries w c s prep expl cfg (i + length qs1) qs2 errd' st'
      | other => other
      end.
Proof.
  induction qs1 as [|cq qs1 IH]; intros i errd st.
  - cbn. rewrite Nat.add_0_r. reflexivity.
  - cbn [app checkQueries length]. rewrite <- Nat.add_succ_comm.
    destruct (default false (Flags cq !! QueryFlagSqlcVetDisable)); [apply IH|].
    unfold bind.
    destruct (checkRules w c s prep expl i cq (SQL_Rules s) _ st)
      as [[[e|[errd1 em1]]|m] st1]; try reflexivity.
    apply IH.
Qed.

(** The group loop over a concatenation. *)
Lemma vetGroups_app (w : World) (c : checker) (sqls1 sqls2 : list SQL) :
  forall (errd : bool) (st : State),
    vetGroups w c (sqls1 ++ sqls2) errd st =
      match vetGroups w c sqls1 errd st with
      | (Done errd', st') => vetGroups w c sqls2 errd' st'
      | (Panic m, st') => (Panic m, st')
      end.
Proof.
  induction sqls1 as [|s sqls1 IH]; intros errd st; [reflexivity|].
  cbn [app vetGroups]. unfold bind at 1 3.
  destruct (checkSQL w c s st) as [[[err|]|m] st1]; [| |reflexivity].
  - unfold bind. destruct (negb (is_ErrFailedChecks err)); cbn; apply IH.
  - apply IH.
Qed.

(** An error that the query loop returns is what [checkSQL] returns, once
    the deferred [Close] has run. *)
Lemma checkSQL_loop_error (w : World) (c : checker) (s : SQL) (result : Result)
    (prep : option preparer) (expl : option explainer) (driver : option string)
    (e : error) (st sta stb : State) :
  parse w s = Some result ->
  connect w c s st = (Done (inr (prep, expl, driver)), sta) ->
  checkQueries w c s prep expl (vetConfig (Result_Settings result)) 0
    (Result_Queries result) false sta = (Done (inl e), stb) ->
  checkSQL w c s st = (Done (Some e), snd (close driver stb)).
Proof.
  intros Hparse Hconn Hloop. unfold checkSQL. rewrite Hparse. unfold bind at 1.
  rewrite Hconn. unfold defer, bind. rewrite Hloop. reflexivity.
Qed.

(** The run after a group has returned an error of its own: [Vet] prints
    it, checks the groups that follow, and ends with [ErrFailedChecks]; the
    command exits with 1. *)
Lemma Vet_after_group_error (w : World) (noDatabase : bool) (conf : Config)
    (rules : gmap string rule) (gs1 gs2 : list SQL) (s : SQL)
    (errd0 : bool) (msg : string) (st0 st st' : State) :
  compileRules w (Conf_Rules conf) builtinRules = inr rules ->
  Conf_SQL conf = gs1 ++ s :: gs2 ->
  vetGroups w {| Rules := rules; NoDatabase := noDatabase |} gs1 false st0
    = (Done errd0, st) ->
  checkSQL w {| Rules := rules; NoDatabase := noDatabase |} s st
    = (Done (Some (Errorf msg)), st') ->
  Vet w noDatabase conf st0 =
    match vetGroups w {| Rules := rules; NoDatabase := noDatabase |} gs2 true
            {| Stderr := Stderr st' ++ [msg +:+ nl]; Log := Log st' |} with
    | (Done _, stf) => (Done (Some ErrFailedChecks), stf)
    | (Panic m, stf) => (Panic m, stf)
    end /\
  RunE w noDatabase conf st0 =
    match vetGroups w {| Rules := rules; NoDatabase := noDatabase |} gs2 true
            {| Stderr := Stderr st' ++ [msg +:+ nl]; Log := Log st' |} with
    | (Done _, stf) => (Done 1%Z, stf)
    | (Panic m, stf) => (Panic m, stf)
    end.
Proof.
  intros Hc Hsql Hgs1 Hs.
  assert (HVet : Vet w noDatabase conf st0 =
    match vetGroups w {| Rules := rules; NoDatabase := noDatabase |} gs2 true
            {| Stderr := Stderr st' ++ [msg +:+ nl]; Log := Log st' |} with
    | (Done _, stf) => (Done (Some ErrFailedChecks), stf)
    | (Panic m, stf) => (Panic m, stf)
    end).
  { unfold Vet. rewrite Hc, Hsql. unfold bind. rewrite vetGroups_app, Hgs1.
    rewrite (vetGroups_group_error _ _ _ _ _ _ _ _ Hs).
    destruct (vetGroups w _ gs2 true _) as [[r|m] stf] eqn:E; [|reflexivity].
    rewrite (vetGroups_flag_stays _ _ _ _ _ _ E). reflexivity. }
  split; [exact HVet|]. unfold RunE, bind. rewrite HVet.
  destruct (vetGroups w _ gs2 true _) as [[r|m] stf]; reflexivity.
Qed.

(** ** An unknown rule name *)

(** C3, counterexample: the group lists [sqlc/db-prepare], [no-select-star]
    and then a name no rule has.  Before the run stops on that name the
    first query has been prepared on the server and evaluated against
    [no-select-star], and its violation has been written. *)
Lemma C3_counterexample_rules_listed_before_are_run :
  let w := Sample.world (fun _ => [Sample.ListAll; Sample.GetUser]) None None in
  let conf :=
    {| Conf_Rules := [Sample.def "no-select-star" Sample.no_select_star_src "avoid select *"];
       Conf_SQL := [Sample.group EnginePostgreSQL (Some "postgres://localhost/db")
                      [RuleDbPrepare; "no-select-star"; "missing"]] |} in
  (exists rules, compileRules w (Conf_Rules conf) builtinRules = inr rules /\
                 rules !! "missing" = None) /\
  RunE w false conf st0 =
    (Done 1%Z,
     {| Stderr := ["query.sql: ListAll: no-select-star: avoid select *" +:+ nl;
                   "type-check error: a rule with the name 'missing' does not exist" +:+ nl];
        Log := [EvOpen "pgx" "postgres://localhost/db";
                EvPgxPrepare "sqlc_vet_1700000000_0" "SELECT * FROM users";
                EvClose "pgx"] |}).
Proof.
  split.
  - eexists. split; [vm_compute; reflexivity | vm_compute; reflexivity].
  - vm_compute. reflexivity.
Qed.

(** C3 (amended): a rule name that no compiled rule has is met in the rule
    loop of the first query of the group that is not skipped.  The rules
    listed before it are run on that query first; when they neither return
    nor panic, [checkSQL] returns the error naming the unknown rule from
    the state those rules left, once the connection is closed: the rules
    listed after the name and the queries that follow are not looked at.
    [Vet] prints the error, checks the groups that follow with its flag
    set, and ends with [ErrFailedChecks]; the command exits with 1.  A
    group all of whose queries are skipped does not meet the name at all:
    its check returns [nil]. *)
Theorem C3_unknown_rule_name_met_in_rule_order
    (w : World) (noDatabase : bool) (conf : Config) (rules : gmap string rule)
    (gs1 gs2 : list SQL) (s : SQL) (result : Result)
    (prep : option preparer) (expl : option explainer) (driver : option string)
    (qs1 qs2 : list CompiledQuery) (cq : CompiledQuery)
    (pre post : list string) (name : string)
    (errd0 : bool) (ls : loopState) (st0 st sta stb : State) :
  let c := {| Rules := rules; NoDatabase := noDatabase |} in
  let msg := "type-check error: a rule with the name '" +:+ name +:+ "' does not exist" in
  compileRules w (Conf_Rules conf) builtinRules = inr rules ->
  Conf_SQL conf = gs1 ++ s :: gs2 ->
  vetGroups w c gs1 false st0 = (Done errd0, st) ->
  parse w s = Some result ->
  connect w c s st = (Done (inr (prep, expl, driver)), sta) ->
  rules !! name = None ->
  SQL_Rules s = pre ++ name :: post ->
  (Forall (fun q => default false (Flags q !! QueryFlagSqlcVetDisable) = true)
     (Result_Queries result) ->
   checkSQL w c s st = (Done None, snd (close driver sta))) /\
  (Result_Queries result = qs1 ++ cq :: qs2 ->
   Forall (fun q => default false (Flags q !! QueryFlagSqlcVetDisable) = true) qs1 ->
   default false (Flags cq !! QueryFlagSqlcVetDisable) = false ->
   checkRules w c s prep expl (length qs1) cq pre
     {| errored := false;
        evalMap := newEvalMap (vetConfig (Result_Settings result)) (PQuery cq) |} sta
     = (Done (inr ls), stb) ->
   let stc := snd (close driver stb) in
   let std := {| Stderr := Stderr stc ++ [msg +:+ nl]; Log := Log stc |} in
   checkSQL w c s st = (Done (Some (Errorf msg)), stc) /\
   Vet w noDatabase conf st0 =
     match vetGroups w c gs2 true std with
     | (Done _, stf) => (Done (Some ErrFailedChecks), stf)
     | (Panic m, stf) => (Panic m, stf)
     end /\
   RunE w noDatabase conf st0 =
     match vetGroups w c gs2 true std with
     | (Done _, stf) => (Done 1%Z, stf)
     | (Panic m, stf) => (Panic m, stf)
     end).
Proof.
  intros c msg Hc Hsql Hgs1 Hparse Hconn Hname Hrules. split.
  - intros Hskip. unfold checkSQL. rewrite Hparse. unfold bind at 1. rewrite Hconn.
    unfold defer, bind.
    rewrite (checkQueries_all_disabled w c s prep expl _ _ Hskip). reflexivity.
  - intros Hqs Hskip Hflag Hpre stc std.
    assert (HSQL : checkSQL w c s st = (Done (Some (Errorf msg)), stc)).
    { apply (checkSQL_loop_error w c s result prep expl driver _ st sta stb Hparse Hconn).
      rewrite Hqs, checkQueries_app.
      rewrite (checkQueries_all_disabled w c s prep expl _ _ Hskip).
      cbn [checkQueries]. rewrite Hflag, Hrules. unfold bind.
      rewrite checkRules_app. cbn [Nat.add]. rewrite Hpre.
      cbn [checkRules]. unfold bind.
      rewrite (checkRule_unknown w c s prep expl _ _ name ls stb Hname). reflexivity. }
    split; [exact HSQL|].
    exact (Vet_after_group_error w noDatabase conf rules gs1 gs2 s errd0 msg st0 st stc
             Hc Hsql Hgs1 HSQL).
Qed.

Lemma C3_witness_missing_after_two_rules :
  let w := Sample.world (fun _ => [Sample.ListAll; Sample.GetUser]) None None in
  let s := Sample.group EnginePostgreSQL (Some "postgres://localhost/db")
             [RuleDbPrepare; "no-select-star"; "missing"] in
  let conf :=
    {| Conf_Rules := [Sample.def "no-select-star" Sample.no_select_star_src "avoid select *"];
       Conf_SQL := [s] |} in
  let c := Sample.checker_of [("no-select-star", Sample.star_rule)] false in
  let msg := "type-check error: a rule with the name 'missing' does not exist" in
  let stc :=
    {| Stderr := ["query.sql: ListAll: no-select-star: avoid select *" +:+ nl];
       Log := [EvOpen "pgx" "postgres://localhost/db";
               EvPgxPrepare "sqlc_vet_1700000000_0" "SELECT * FROM users";
               EvClose "pgx"] |} in
  checkSQL w c s st0 = (Done (Some (Errorf msg)), stc) /\
  Vet w false conf st0 =
    (Done (Some ErrFailedChecks),
     {| Stderr := Stderr stc ++ [msg +:+ nl]; Log := Log stc |}) /\
  RunE w false conf st0 =
    (Done 1%Z, {| Stderr := Stderr stc ++ [msg +:+ nl]; Log := Log stc |}).
Proof.
  intros w s conf c msg stc.
  refine (proj2 (C3_unknown_rule_name_met_in_rule_order w false conf (Rules c)
                   [] [] s
                   {| Result_Queries := [Sample.ListAll; Sample.GetUser];
                      Result_Settings := Sample.settings EnginePostgreSQL |}
                   (Some pgxConn_p) (Some pgxConn_e) (Some "pgx")
                   [] [Sample.GetUser] Sample.ListAll
                   [RuleDbPrepare; "no-select-star"] [] "missing" false
                   (set_errored (Sample.fresh false EnginePostgreSQL Sample.ListAll))
                   st0 st0
                   {| Stderr := []; Log := [EvOpen "pgx" "postgres://localhost/db"] |}
                   {| Stderr := ["query.sql: ListAll: no-select-star: avoid select *" +:+ nl];
                      Log := [EvOpen "pgx" "postgres://localhost/db";
                              EvPgxPrepare "sqlc_vet_1700000000_0" "SELECT * FROM users"] |}
                   _ _ _ _ _ _ _) _ _ _ _).
  - vm_compute. reflexivity.
  - reflexivity.
  - reflexivity.
  - reflexivity.
  - vm_compute. reflexivity.
  - vm_compute. reflexivity.
  - reflexivity.
  - reflexivity.
  - constructor.
  - vm_compute. reflexivity.
  - vm_compute. reflexivity.
Defined.

(** ** A rule whose expression is not boolean *)

(** C2, counterexample: the first group evaluates [query.params.size()],
    which is the number 1 on its first query.  The error is printed, the
    second group is evaluated all the same (its violation follows on the
    error stream), and [Vet] returns [ErrFailedChecks], the exit status
    being 1: what a run with nothing but that violation returns. *)
Lemma C2_counterexample_later_group_runs_same_signal :
  let w := Sample.world (fun s => if SQL_Engine s =? EnginePostgreSQL
                                  then [Sample.GetUser; Sample.ListAll]
                                  else [Sample.ListAll]) None None in
  let defs := [Sample.def "size" Sample.params_size_src "";
               Sample.def "no-select-star" Sample.no_select_star_src "avoid select *"] in
  let second := Sample.group EngineMySQL None ["no-select-star"] in
  let conf :=
    {| Conf_Rules := defs;
       Conf_SQL := [Sample.group EnginePostgreSQL None ["size"; "no-select-star"]; second] |} in
  let ordinary := {| Conf_Rules := defs; Conf_SQL := [second] |} in
  Sample.params_size (evalMap (Sample.fresh false EnginePostgreSQL Sample.GetUser))
    = inr (VInt 1) /\
  Vet w false conf st0 =
    (Done (Some ErrFailedChecks),
     {| Stderr := ["expression returned non-bool value: 1" +:+ nl;
                   "query.sql: ListAll: no-select-star: avoid select *" +:+ nl];
        Log := [] |}) /\
  fst (Vet w false ordinary st0) = Done (Some ErrFailedChecks) /\
  fst (RunE w false conf st0) = Done 1%Z /\
  fst (RunE w false ordinary st0) = Done 1%Z.
Proof. repeat split; vm_compute; reflexivity. Qed.

(** C2 (amended): when the program of a rule evaluates to a value that is
    not a boolean, [checkSQL] returns at once with the error "expression
    returned non-bool value" followed by the value: nothing is written for
    the rule, the rules and the queries that follow are not looked at, and
    only the deferred [Close] still runs.  This ends the group, not the
    run: [Vet] prints the error, checks the groups that follow with its
    flag set, and ends with [ErrFailedChecks], so that the command exits
    with 1 as after an ordinary violation. *)
Theorem C2_non_boolean_result_ends_the_group_only
    (w : World) (noDatabase : bool) (conf : Config) (rules : gmap string rule)
    (gs1 gs2 : list SQL) (s : SQL) (result : Result)
    (prep : option preparer) (expl : option explainer) (driver : option string)
    (qs1 qs2 : list CompiledQuery) (cq : CompiledQuery)
    (pre post : list string) (name : string)
    (rule : rule) (prg : Program) (out : Val)
    (errd0 errd : bool) (ls ls1 ls2 : loopState)
    (st0 st sta stb stc st1 st2 : State) :
  let c := {| Rules := rules; NoDatabase := noDatabase |} in
  let cfg := vetConfig (Result_Settings result) in
  let msg := "expression returned non-bool value: " +:+ fmt_v out in
  compileRules w (Conf_Rules conf) builtinRules = inr rules ->
  Conf_SQL conf = gs1 ++ s :: gs2 ->
  vetGroups w c gs1 false st0 = (Done errd0, st) ->
  parse w s = Some result ->
  connect w c s st = (Done (inr (prep, expl, driver)), sta) ->
  Result_Queries result = qs1 ++ cq :: qs2 ->
  checkQueries w c s prep expl cfg 0 qs1 false sta = (Done (inr errd), stb) ->
  default false (Flags cq !! QueryFlagSqlcVetDisable) = false ->
  SQL_Rules s = pre ++ name :: post ->
  checkRules w c s prep expl (length qs1) cq pre
    {| errored := errd; evalMap := newEvalMap cfg (PQuery cq) |} stb
    = (Done (inr ls), stc) ->
  rules !! name = Some rule ->
  rule_Program rule = Some prg ->
  prepareStep w s prep (length qs1) cq name rule ls stc = (Done (Proceed ls1), st1) ->
  explainStep w expl cq name rule ls1 st1 = (Done (Proceed ls2), st2) ->
  prg (evalMap ls2) = inr out ->
  (forall b, out <> VBool b) ->
  let st3 := snd (close driver st2) in
  let st4 := {| Stderr := Stderr st3 ++ [msg +:+ nl]; Log := Log st3 |} in
  checkSQL w c s st = (Done (Some (Errorf msg)), st3) /\
  Vet w noDatabase conf st0 =
    match vetGroups w c gs2 true st4 with
    | (Done _, stf) => (Done (Some ErrFailedChecks), stf)
    | (Panic m, stf) => (Panic m, stf)
    end /\
  RunE w noDatabase conf st0 =
    match vetGroups w c gs2 true st4 with
    | (Done _, stf) => (Done 1%Z, stf)
    | (Panic m, stf) => (Panic m, stf)
    end.
Proof.
  intros c cfg msg Hc Hsql Hgs1 Hparse Hconn Hqs Hq Hflag Hrules Hpre Hrule Hprg
    Hprep Hexpl Hout Hnonbool st3 st4.
  assert (HSQL : checkSQL w c s st = (Done (Some (Errorf msg)), st3)).
  { apply (checkSQL_loop_error w c s result prep expl driver _ st sta st2 Hparse Hconn).
    rewrite Hqs, checkQueries_app. fold cfg. rewrite Hq.
    cbn [checkQueries Nat.add]. rewrite Hflag, Hrules. unfold bind.
    rewrite checkRules_app, Hpre.
    cbn [checkRules]. unfold bind, checkRule. cbn [Rules c]. rewrite Hrule.
    unfold bind. rewrite Hprep, Hprg, Hexpl. unfold evalStep. rewrite Hout.
    destruct out as [b| | | | |]; [destruct (Hnonbool b); reflexivity|..]; reflexivity. }
  split; [exact HSQL|].
  exact (Vet_after_group_error w noDatabase conf rules gs1 gs2 s errd0 msg st0 st st3
           Hc Hsql Hgs1 HSQL).
Qed.

Lemma C2_witness_params_size :
  let w := Sample.world (fun s => if SQL_Engine s =? EnginePostgreSQL
                                  then [Sample.GetUser; Sample.ListAll]
                                  else [Sample.ListAll]) None None in
  let first := Sample.group EnginePostgreSQL None ["size"; "no-select-star"] in
  let second := Sample.group EngineMySQL None ["no-select-star"] in
  let conf :=
    {| Conf_Rules := [Sample.def "size" Sample.params_size_src "";
                      Sample.def "no-select-star" Sample.no_select_star_src
                        "avoid select *"];
       Conf_SQL := [first; second] |} in
  let c := Sample.checker_of [("size", Sample.size_rule);
                              ("no-select-star", Sample.star_rule)] false in
  let msg := "expression returned non-bool value: " +:+ fmt_v (VInt 1) in
  let st4 := {| Stderr := [msg +:+ nl]; Log := [] |} in
  checkSQL w c first st0 = (Done (Some (Errorf msg)), st0) /\
  Vet w false conf st0 =
    match vetGroups w c [second] true st4 with
    | (Done _, stf) => (Done (Some ErrFailedChecks), stf)
    | (Panic m, stf) => (Panic m, stf)
    end /\
  RunE w false conf st0 =
    match vetGroups w c [second] true st4 with
    | (Done _, stf) => (Done 1%Z, stf)
    | (Panic m, stf) => (Panic m, stf)
    end.
Proof.
  intros w first second conf c msg st4.
  refine (C2_non_boolean_result_ends_the_group_only w false conf (Rules c)
            [] [second] first
            {| Result_Queries := [Sample.GetUser; Sample.ListAll];
               Result_Settings := Sample.settings EnginePostgreSQL |}
            None None None [] [Sample.ListAll] Sample.GetUser
            [] ["no-select-star"] "size" Sample.size_rule Sample.params_size (VInt 1)
            false false
            (Sample.fresh false EnginePostgreSQL Sample.GetUser)
            (Sample.fresh false EnginePostgreSQL Sample.GetUser)
            (Sample.fresh false EnginePostgreSQL Sample.GetUser)
            st0 st0 st0 st0 st0 st0 st0 _ _ _ _ _ _ _ _ _ _ _ _ _ _ _ _).
  - vm_compute. reflexivity.
  - reflexivity.
  - reflexivity.
  - reflexivity.
  - reflexivity.
  - reflexivity.
  - reflexivity.
  - reflexivity.
  - reflexivity.
  - reflexivity.
  - vm_compute. reflexivity.
  - reflexivity.
  - reflexivity.
  - reflexivity.
  - vm_compute. reflexivity.
  - intros b. discriminate.
Defined.

(** ** Statements that cannot be prepared *)

Lemma prepareable_false (s : SQL) (raw : Stmt) :
  prepareable s raw = false ->
  (SQL_Engine s = EnginePostgreSQL /\
   raw <> DeleteStmt /\ raw <> InsertStmt /\ raw <> SelectStmt /\ raw <> UpdateStmt) \/
  (SQL_Engine s <> EnginePostgreSQL /\ SQL_Engine s <> EngineMySQL /\
   SQL_Engine s <> EngineSQLite).
Proof.
  unfold prepareable.
  destruct (String.eqb_spec (SQL_Engine s) EnginePostgreSQL) as [Hpg|Hpg].
  - intros H. left. split; [exact Hpg|]. destruct raw; try discriminate.
    repeat split; discriminate.
  - destruct (String.eqb_spec (SQL_Engine s) EngineMySQL) as [Hmy|Hmy]; [discriminate|].
    destruct (String.eqb_spec (SQL_Engine s) EngineSQLite) as [Hlite|Hlite]; [discriminate|].
    intros _. right. auto.
Qed.

Lemma prepareable_true (s : SQL) (raw : Stmt) :
  prepareable s raw = true <->
  (SQL_Engine s = EnginePostgreSQL /\
   (raw = DeleteStmt \/ raw = InsertStmt \/ raw = SelectStmt \/ raw = UpdateStmt)) \/
  SQL_Engine s = EngineMySQL \/ SQL_Engine s = EngineSQLite.
Proof.
  unfold prepareable.
  destruct (String.eqb_spec (SQL_Engine s) EnginePostgreSQL) as [Hpg|Hpg].
  - rewrite Hpg. split.
    + intros H. left. split; [reflexivity|]. destruct raw; try discriminate; auto.
    + intros [[_ [ -> | [ -> | [ -> | -> ]]]] | [H | H]]; try reflexivity; discriminate.
  - destruct (String.eqb_spec (SQL_Engine s) EngineMySQL) as [Hmy|Hmy]; [tauto|].
    destruct (String.eqb_spec (SQL_Engine s) EngineSQLite) as [Hlite|Hlite]; [tauto|].
    split; [discriminate | tauto].
Qed.

(** C8, counterexample: a PostgreSQL group without a database, the rule
    [sqlc/db-prepare] and a VACUUM statement, which is not preparable.  The
    one line written says that a database connection is required. *)
Lemma C8_counterexample_without_database :
  let s := Sample.group EnginePostgreSQL None [RuleDbPrepare] in
  prepareable s (RawStmt Sample.Vacuum) = false /\
  RunE (Sample.world (fun _ => [Sample.Vacuum]) None None) false
       {| Conf_Rules := []; Conf_SQL := [s] |} st0 =
    (Done 1%Z,
     {| Stderr := ["query.sql: Vacuum: sqlc/db-prepare: error preparing query: "
                   +:+ "database connection required" +:+ nl];
        Log := [] |}).
Proof. split; vm_compute; reflexivity. Qed.

(** C8 (amended): with a connection open for the group, the built-in rule
    [sqlc/db-prepare] on a query whose statement is not preparable writes
    the one line "error preparing query: query type is unpreparable" under
    the rule's name, sets the flag and continues with the next rule; the
    call history is left as it was, so neither [Prepare] nor [Explain] is
    called.  Such a statement is a PostgreSQL statement other than DELETE,
    INSERT, SELECT and UPDATE, or the engine is none of the three. *)
Theorem C8_unpreparable_statement_is_reported
    (w : World) (defs : list RuleDef) (c : checker) (s : SQL)
    (p : preparer) (expl : option explainer)
    (i : nat) (cq : CompiledQuery) (ls : loopState) (st : State) :
  compileRules w defs builtinRules = inr (Rules c) ->
  prepareable s (RawStmt cq) = false ->
  checkRule w c s (Some p) expl i cq RuleDbPrepare ls st =
    (Done (Continue (set_errored ls)),
     {| Stderr := Stderr st ++
          [Query_Filename (PQuery cq) +:+ ": " +:+ Query_Name (PQuery cq) +:+ ": "
           +:+ RuleDbPrepare +:+ ": error preparing query: query type is unpreparable"
           +:+ nl];
        Log := Log st |}) /\
  ((SQL_Engine s = EnginePostgreSQL /\
    RawStmt cq <> DeleteStmt /\ RawStmt cq <> InsertStmt /\
    RawStmt cq <> SelectStmt /\ RawStmt cq <> UpdateStmt) \/
   (SQL_Engine s <> EnginePostgreSQL /\ SQL_Engine s <> EngineMySQL /\
    SQL_Engine s <> EngineSQLite)).
Proof.
  intros Hc Hprep. split; [|exact (prepareable_false _ _ Hprep)].
  unfold checkRule.
  rewrite (compileRules_keeps _ _ _ _ RuleDbPrepare _ Hc (lookup_singleton_eq _ _)).
  unfold bind, prepareStep. cbn [NeedsPrepare]. rewrite Hprep. reflexivity.
Qed.

Lemma C8_witness_vacuum_on_postgresql :
  let s := Sample.group EnginePostgreSQL (Some "postgres://localhost/db") [RuleDbPrepare] in
  checkRule (Sample.world (fun _ => [Sample.Vacuum]) None None)
            (Sample.checker_of [("no-select-star", Sample.star_rule)] false) s
            (Some pgxConn_p) (Some pgxConn_e) 0 Sample.Vacuum RuleDbPrepare
            (Sample.fresh false EnginePostgreSQL Sample.Vacuum) st0 =
    (Done (Continue (set_errored (Sample.fresh false EnginePostgreSQL Sample.Vacuum))),
     {| Stderr := ["query.sql" +:+ ": " +:+ "Vacuum" +:+ ": " +:+ RuleDbPrepare
                   +:+ ": error preparing query: query type is unpreparable" +:+ nl];
        Log := [] |}).
Proof.
  intros s.
  refine (proj1 (C8_unpreparable_statement_is_reported
                   (Sample.world (fun _ => [Sample.Vacuum]) None None)
                   [Sample.def "no-select-star" Sample.no_select_star_src "avoid select *"]
                   (Sample.checker_of [("no-select-star", Sample.star_rule)] false) s
                   pgxConn_p (Some pgxConn_e) 0 Sample.Vacuum
                   (Sample.fresh false EnginePostgreSQL Sample.Vacuum) st0 _ _)).
  - vm_compute. reflexivity.
  - reflexivity.
Defined.

(** ** Rules that ask for a database the group does not have *)

Lemma newEvalMap_not_bound (cfg : VetConfig) (q : Query) :
  explainBound (newEvalMap cfg q) = false.
Proof.
  unfold explainBound, has_key, newEvalMap.
  rewrite !lookup_insert_ne, !lookup_empty by discriminate. reflexivity.
Qed.

Section NoExplainer.

Variables (w : World) (c : checker) (s : SQL) (prep : option preparer).

(** Without an explainer nothing is ever stored in [evalMap]. *)
Lemma checkRule_keeps_evalMap (i : nat) (cq : CompiledQuery) (name : string)
    (ls : loopState) (st st' : State) (f : flow) :
  checkRule w c s prep None i cq name ls st = (Done f, st') ->
  match f with
  | Proceed ls' | Continue ls' => evalMap ls' = evalMap ls
  | Return _ => True
  end.
Proof.
  unfold checkRule. destruct (Rules c !! name) as [rule|]; [|intros [= <- _]; exact I].
  unfold bind at 1.
  assert (Hprep : forall r st1,
             prepareStep w s prep i cq name rule ls st = (Done r, st1) ->
             match r with
             | Proceed ls' => ls' = ls
             | Continue ls' => evalMap ls' = evalMap ls
             | Return _ => False
             end).
  { intros r st1. unfold prepareStep.
    destruct (NeedsPrepare rule); [|intros [= <- _]; reflexivity].
    destruct prep as [p|]; [|intros [= <- _]; reflexivity].
    destruct (negb _); [intros [= <- _]; reflexivity|].
    unfold bind, history.
    destruct (Prepare w p _ _ st) as [[[err|]|m] st2]; intros [= <- _]; reflexivity. }
  destruct (prepareStep w s prep i cq name rule ls st) as [[r|m] st1] eqn:E;
    [|discriminate].
  specialize (Hprep _ _ eq_refl).
  destruct r as [ls1|ls1|e]; [subst ls1| |];
    try (intros [= <- _]; first [assumption | exact I]).
  destruct (rule_Program rule) as [prg|]; [|intros [= <- _]; reflexivity].
  unfold bind, explainStep.
  destruct (NeedsExplain rule && _); cbn.
  - intros [= <- _]. reflexivity.
  - unfold evalStep. destruct (prg (evalMap ls)) as [err|[[|]| | | | |]];
      try (intros [= <- _]; exact I).
    + destruct (Message rule =? ""); intros [= <- _]; reflexivity.
    + intros [= <- _]. reflexivity.
Qed.

Lemma checkRules_keeps_evalMap (i : nat) (cq : CompiledQuery) (names : list string) :
  forall (ls ls' : loopState) (st st' : State),
    checkRules w c s prep None i cq names ls st = (Done (inr ls'), st') ->
    evalMap ls' = evalMap ls.
Proof.
  induction names as [|name names IH]; intros ls ls' st st'; cbn [checkRules].
  - intros [= <- _]. reflexivity.
  - unfold bind.
    destruct (checkRule w c s prep None i cq name ls st) as [[f|m] st1] eqn:E;
      [|discriminate].
    apply checkRule_keeps_evalMap in E.
    destruct f as [ls1|ls1|e]; [| |discriminate];
      intros H; apply IH in H; congruence.
Qed.

End NoExplainer.

(** With neither a preparer nor an explainer, a rule that asks for the
    database is reported and the loop continues. *)
Lemma checkRule_no_database (w : World) (c : checker) (s : SQL)
    (i : nat) (cq : CompiledQuery) (name : string) (rule : rule)
    (ls : loopState) (st : State) :
  Rules c !! name = Some rule ->
  needsDatabase rule = true ->
  explainBound (evalMap ls) = false ->
  checkRule w c s None None i cq name ls st =
    (Done (Continue (set_errored ls)),
     {| Stderr := Stderr st ++ [noDatabaseLine cq name rule]; Log := Log st |}).
Proof.
  intros Hrule Hneeds Hbound. unfold checkRule, noDatabaseLine. rewrite Hrule.
  unfold bind at 1. unfold prepareStep.
  destruct (NeedsPrepare rule) eqn:Hp; [reflexivity|].
  unfold needsDatabase in Hneeds. rewrite Hp in Hneeds. cbn in Hneeds.
  apply andb_true_iff in Hneeds as [He Hprg].
  cbn. destruct (rule_Program rule) as [prg|]; [|discriminate].
  unfold bind, explainStep. fold (explainBound (evalMap ls)).
  rewrite He, Hbound. reflexivity.
Qed.

(** C6, counterexample: the group has a database and connections are
    disabled.  The check of the group returns before the first query with
    the error "database: connections disabled via command line flag"; no
    line saying "database connection required" is written. *)
Lemma C6_counterexample_connections_disabled :
  RunE (Sample.world (fun _ => [Sample.GetUser]) None None) true
       {| Conf_Rules := [];
          Conf_SQL := [Sample.group EnginePostgreSQL (Some "postgres://localhost/db")
                         [RuleDbPrepare]] |}
       st0 =
    (Done 1%Z,
     {| Stderr := ["database: connections disabled via command line flag" +:+ nl];
        Log := [] |}).
Proof. vm_compute. reflexivity. Qed.

(** C6 (amended): in a group without a configured database there is
    neither a preparer nor an explainer, and every rule of the list that
    asks for the database is reported for the query with the line
    "error preparing/explaining query: database connection required", the
    flag is set and the loop goes on with the rules that follow.  In a
    group with a configured database and connections disabled, [checkSQL]
    returns the error "database: connections disabled via command line
    flag" before the first query and writes nothing. *)
Theorem C6_missing_database_reported_per_pair
    (w : World) (c : checker) (s : SQL) (cfg : VetConfig)
    (i : nat) (cq : CompiledQuery)
    (pre : list string) (name : string) (post : list string) (rule : rule)
    (errd : bool) (st : State) :
  Rules c !! name = Some rule ->
  needsDatabase rule = true ->
  (SQL_Database s = None ->
   connect w c s st = (Done (inr (None, None, None)), st) /\
   checkRules w c s None None i cq (pre ++ name :: post)
     {| errored := errd; evalMap := newEvalMap cfg (PQuery cq) |} st =
     match checkRules w c s None None i cq pre
             {| errored := errd; evalMap := newEvalMap cfg (PQuery cq) |} st with
     | (Done (inr ls), st') =>
         checkRules w c s None None i cq post (set_errored ls)
           {| Stderr := Stderr st' ++ [noDatabaseLine cq name rule]; Log := Log st' |}
     | other => other
     end) /\
  (forall uri result,
     SQL_Database s = Some uri -> NoDatabase c = true -> parse w s = Some result ->
     checkSQL w c s st =
       (Done (Some (Errorf "database: connections disabled via command line flag")), st)).
Proof.
  intros Hrule Hneeds. split.
  - intros Hdb. split; [unfold connect; rewrite Hdb; reflexivity|].
    rewrite checkRules_app.
    destruct (checkRules w c s None None i cq pre _ st) as [[[e|ls]|m] st'] eqn:E;
      try reflexivity.
    apply checkRules_keeps_evalMap in E. cbn [evalMap] in E.
    cbn [checkRules]. unfold bind at 1.
    rewrite (checkRule_no_database w c s i cq name rule ls st' Hrule Hneeds).
    + reflexivity.
    + rewrite E. apply newEvalMap_not_bound.
  - intros uri result Hdb Hno Hparse. unfold checkSQL. rewrite Hparse.
    unfold bind, connect. rewrite Hdb, Hno. reflexivity.
Qed.

Lemma C6_witness_group_without_database :
  let w := Sample.world (fun _ => [Sample.GetUser]) None None in
  let rules := [("no-select-star", Sample.star_rule); ("many", Sample.many_rule)] in
  let c := Sample.checker_of rules false in
  let s := Sample.group EnginePostgreSQL None ["no-select-star"; "many"; RuleDbPrepare] in
  let fresh := Sample.fresh false EnginePostgreSQL Sample.GetUser in
  (connect w c s st0 = (Done (inr (None, None, None)), st0) /\
   checkRules w c s None None 0 Sample.GetUser
     (["no-select-star"] ++ "many" :: [RuleDbPrepare]) fresh st0 =
     match checkRules w c s None None 0 Sample.GetUser ["no-select-star"] fresh st0 with
     | (Done (inr ls), st') =>
         checkRules w c s None None 0 Sample.GetUser [RuleDbPrepare] (set_errored ls)
           {| Stderr := Stderr st' ++ [noDatabaseLine Sample.GetUser "many" Sample.many_rule];
              Log := Log st' |}
     | other => other
     end) /\
  checkSQL w (Sample.checker_of rules true)
    (Sample.group EnginePostgreSQL (Some "postgres://localhost/db") ["many"]) st0 =
    (Done (Some (Errorf "database: connections disabled via command line flag")), st0).
Proof.
  intros w rules c s fresh. split.
  - refine (proj1 (C6_missing_database_reported_per_pair w c s
                     (vetConfig (Sample.settings EnginePostgreSQL)) 0 Sample.GetUser
                     ["no-select-star"] "many" [RuleDbPrepare] Sample.many_rule
                     false st0 _ _) _).
    + vm_compute. reflexivity.
    + reflexivity.
    + reflexivity.
  - refine (proj2 (C6_missing_database_reported_per_pair w
                     (Sample.checker_of rules true)
                     (Sample.group EnginePostgreSQL (Some "postgres://localhost/db") ["many"])
                     (vetConfig (Sample.settings EnginePostgreSQL)) 0 Sample.GetUser
                     [] "many" [] Sample.many_rule false st0 _ _)
                  "postgres://localhost/db" _ _ _ _).
    + vm_compute. reflexivity.
    + reflexivity.
    + reflexivity.
    + reflexivity.
    + reflexivity.
Defined.

(** ** The [Explain] calls of one query *)

Lemma explainResults_app (l1 l2 : list Event) :
  explainResults (l1 ++ l2) = explainResults l1 ++ explainResults l2.
Proof.
  induction l1 as [|e l1 IH]; [reflexivity|].
  destruct e; cbn; rewrite IH; reflexivity.
Qed.

Lemma Prepare_explainResults (w : World) (p : preparer) (name query : string) (st : State) :
  explainResults (Log (snd (Prepare w p name query st))) = explainResults (Log st).
Proof.
  destruct p; cbn.
  - unfold pgxConn_Prepare, bind, history, emit, ret. cbn.
    rewrite explainResults_app. cbn. apply app_nil_r.
  - unfold dbPreparer_Prepare, PrepareContext, Stmt_Close, bind, history, emit, ret, panic.
    cbn. destruct (sql_PrepareContext w (Log st) query); cbn;
      rewrite ?explainResults_app; cbn; rewrite ?app_nil_r; reflexivity.
Qed.

Lemma Explain_explainResults (w : World) (e : explainer) (query : string)
    (args : list PluginParameter) (st : State) :
  explainResults (Log (snd (Explain w e query args st))) =
    explainResults (Log st) ++
      [match fst (Explain w e query args st) with Done (inr _) => true | _ => false end].
Proof.
  unfold Explain. destruct e.
  - pose proof (pgxConn_Explain_log w query args st) as H.
    destruct (pgxConn_Explain w query args st) as [r st1]. cbn in *.
    rewrite H, !explainResults_app. cbn. rewrite app_nil_r. reflexivity.
  - pose proof (mysqlExplainer_Explain_log w query args st) as H.
    destruct (mysqlExplainer_Explain w query args st) as [r st1]. cbn in *.
    rewrite H, !explainResults_app. cbn. rewrite app_nil_r. reflexivity.
Qed.

Lemma explainBound_insert (m : gmap string EnvValue) (x y : EnvValue) :
  explainBound (<["mysql" := x]> (<["postgresql" := y]> m)) = true.
Proof.
  unfold explainBound, has_key.
  rewrite lookup_insert_ne by discriminate. rewrite lookup_insert_eq. reflexivity.
Qed.

Section ExplainTrace.

Variables (w : World) (c : checker) (s : SQL).
Variables (prep : option preparer) (expl : option explainer).
Variables (i : nat) (cq : CompiledQuery).

Lemma prepareStep_effect (name : string) (rule : rule) (ls : loopState)
    (st st' : State) (r : outcome flow) :
  prepareStep w s prep i cq name rule ls st = (r, st') ->
  explainResults (Log st') = explainResults (Log st) /\
  match r with
  | Done (Proceed ls') => ls' = ls
  | Done (Continue ls') => evalMap ls' = evalMap ls
  | Done (Return _) => False
  | Panic _ => True
  end.
Proof.
  unfold prepareStep.
  destruct (NeedsPrepare rule); [|intros [= <- <-]; auto].
  destruct prep as [p|]; [|intros [= <- <-]; auto].
  destruct (negb _); [intros [= <- <-]; auto|].
  unfold bind, history.
  pose proof (Prepare_explainResults w p
                ("sqlc_vet_" +:+ fmt_d (time_Now_Unix w (Log st)) +:+ "_"
                 +:+ fmt_d (Z.of_nat i))
                (Query_Text (PQuery cq)) st) as H.
  destruct (Prepare w p _ _ st) as [[[err|]|m] st1]; cbn in H;
    intros [= <- <-]; cbn; auto.
Qed.

Lemma explainStep_effect (name : string) (rule : rule) (ls : loopState)
    (st st' : State) (r : outcome flow) :
  explainStep w expl cq name rule ls st = (r, st') ->
  exists t, explainResults (Log st') = explainResults (Log st) ++ t /\
    match r with
    | Done (Proceed ls') =>
        (t = [] /\ ls' = ls) \/
        (t = [true] /\ explainBound (evalMap ls) = false /\
         explainBound (evalMap ls') = true)
    | Done (Continue ls') =>
        evalMap ls' = evalMap ls /\
        (t = [] \/ (t = [false] /\ explainBound (evalMap ls) = false))
    | Done (Return _) => False
    | Panic _ => t = [false] /\ explainBound (evalMap ls) = false
    end.
Proof.
  unfold explainStep. fold (explainBound (evalMap ls)).
  destruct (NeedsExplain rule);
    [|intros [= <- <-]; exists []; rewrite app_nil_r; auto].
  destruct (explainBound (evalMap ls)) eqn:Hb;
    [intros [= <- <-]; exists []; rewrite app_nil_r; auto|].
  cbn. destruct expl as [x|];
    [|intros [= <- <-]; exists []; rewrite app_nil_r; cbn; auto].
  unfold bind.
  pose proof (Explain_explainResults w x (Query_Text (PQuery cq))
                (Query_Params (PQuery cq)) st) as H.
  destruct (Explain w x _ _ st) as [[[err|out]|m] st1]; cbn in H;
    intros [= <- <-]; cbn; eexists; (split; [exact H|]); auto.
  right. repeat split. apply explainBound_insert.
Qed.

Lemma evalStep_effect (name : string) (rule : rule) (prg : Program) (ls : loopState)
    (st st' : State) (r : outcome flow) :
  evalStep cq name rule prg ls st = (r, st') ->
  Log st' = Log st /\
  match r with
  | Done (Proceed ls') | Done (Continue ls') => evalMap ls' = evalMap ls
  | _ => True
  end.
Proof.
  unfold evalStep.
  destruct (prg (evalMap ls)) as [err|[[|]| | | | |]]; try (intros [= <- <-]; auto).
  destruct (Message rule =? ""); intros [= <- <-]; auto.
Qed.

(** What one pass of the loop body adds to the outcomes of [Explain]:
    nothing, or one outcome, and then only if [evalMap] held no output;
    after a success [evalMap] holds one. *)
Lemma checkRule_explainResults (name : string) (ls : loopState)
    (st st' : State) (r : outcome flow) :
  checkRule w c s prep expl i cq name ls st = (r, st') ->
  exists t, explainResults (Log st') = explainResults (Log st) ++ t /\
    match r with
    | Done (Proceed ls') | Done (Continue ls') =>
        (t = [] /\ explainBound (evalMap ls') = explainBound (evalMap ls)) \/
        (t = [false] /\ explainBound (evalMap ls) = false /\
         explainBound (evalMap ls') = false) \/
        (t = [true] /\ explainBound (evalMap ls) = false /\
         explainBound (evalMap ls') = true)
    | _ => t = [] \/ (explainBound (evalMap ls) = false /\ exists b, t = [b])
    end.
Proof.
  unfold checkRule.
  destruct (Rules c !! name) as [rule|];
    [|intros [= <- <-]; exists []; rewrite app_nil_r; auto].
  unfold bind at 1.
  destruct (prepareStep w s prep i cq name rule ls st) as [r1 st1] eqn:E1.
  apply prepareStep_effect in E1 as [Hlog1 Hr1].
  destruct r1 as [[ls1|ls1|e]|m]; try contradiction.
  - subst ls1.
    destruct (rule_Program rule) as [prg|].
    + unfold bind.
      destruct (explainStep w expl cq name rule ls st1) as [r2 st2] eqn:E2.
      apply explainStep_effect in E2 as [t [Hlog2 Hr2]]. rewrite Hlog1 in Hlog2.
      destruct r2 as [[ls2|ls2|e]|m]; try contradiction.
      * intros E3. apply evalStep_effect in E3 as [Hlog3 Hr3].
        exists t. rewrite Hlog3. split; [exact Hlog2|].
        destruct Hr2 as [[-> ->]|[-> [Hb Hb2]]].
        -- destruct r as [[ls3|ls3|e]|m]; auto; left; rewrite Hr3; auto.
        -- destruct r as [[ls3|ls3|e]|m]; eauto; right; right; rewrite Hr3; auto.
      * intros [= <- <-]. exists t. split; [exact Hlog2|].
        destruct Hr2 as [Hm [->|[-> Hb]]]; rewrite Hm; auto.
      * intros [= <- <-]. exists t. split; [exact Hlog2|].
        destruct Hr2 as [-> Hb]. eauto.
    + intros [= <- <-]. exists []. rewrite app_nil_r. auto.
  - intros [= <- <-]. exists []. rewrite app_nil_r, Hr1. auto.
  - intros [= <- <-]. exists []. rewrite app_nil_r. auto.
Qed.

End ExplainTrace.

(** C7, counterexample: one query, two rules that read the explain output,
    and a server that answers every EXPLAIN with an error.  [Explain] is
    called for the first rule and again for the second. *)
Lemma C7_counterexample_failing_explain_is_called_again :
  let q := "SELECT id FROM users WHERE id = $1" in
  let eQuery :=
    "EXPLAIN (ANALYZE false, VERBOSE, COSTS, SETTINGS, BUFFERS, FORMAT JSON) " +:+ q in
  snd (RunE (Sample.world (fun _ => [Sample.GetUser]) None (Some "ERROR: timeout")) false
         {| Conf_Rules := [Sample.def "many" Sample.many_rows_src "";
                           Sample.def "huge" Sample.huge_rows_src ""];
            Conf_SQL := [Sample.group EnginePostgreSQL (Some "postgres://localhost/db")
                           ["many"; "huge"]] |}
         st0) =
    {| Stderr := ["query.sql: GetUser: many: error explaining query: ERROR: timeout" +:+ nl;
                  "query.sql: GetUser: huge: error explaining query: ERROR: timeout" +:+ nl];
       Log := [EvOpen "pgx" "postgres://localhost/db";
               EvQueryRow eQuery [any_nil]; EvExplain q 1 false;
               EvQueryRow eQuery [any_nil]; EvExplain q 1 false;
               EvClose "pgx"] |}.
Proof. vm_compute. reflexivity. Qed.

(** C7 (amended): over the rule loop of one query, the [Explain] calls are
    a run of calls that fail followed by at most one call that succeeds,
    and there are no more calls than rules.  The output of a successful
    call is kept in [evalMap], and with an output in [evalMap] no call is
    made; a failure is not kept, so the next rule that reads the explain
    output calls [Explain] again. *)
Theorem C7_explain_calls_fail_then_succeed_once
    (w : World) (c : checker) (s : SQL)
    (prep : option preparer) (expl : option explainer)
    (i : nat) (cq : CompiledQuery) (names : list string) :
  forall (ls : loopState) (st : State),
  exists (n : nat) (b : bool),
    explainResults (Log (snd (checkRules w c s prep expl i cq names ls st))) =
      explainResults (Log st) ++ replicate n false ++ (if b then [true] else []) /\
    n + (if b then 1 else 0) <= length names /\
    (explainBound (evalMap ls) = true -> n = 0 /\ b = false).
Proof.
  induction names as [|name names IH]; intros ls st.
  - exists 0, false. cbn. rewrite app_nil_r. auto.
  - cbn [checkRules]. unfold bind.
    destruct (checkRule w c s prep expl i cq name ls st) as [r st1] eqn:E.
    apply checkRule_explainResults in E as [t [Hlog Hr]].
    assert (Hnext : forall ls1,
              (t = [] /\ explainBound (evalMap ls1) = explainBound (evalMap ls)) \/
              (t = [false] /\ explainBound (evalMap ls) = false /\
               explainBound (evalMap ls1) = false) \/
              (t = [true] /\ explainBound (evalMap ls) = false /\
               explainBound (evalMap ls1) = true) ->
              exists (n : nat) (b : bool),
                explainResults (Log (snd (checkRules w c s prep expl i cq names ls1 st1))) =
                  explainResults (Log st) ++ replicate n false
                    ++ (if b then [true] else []) /\
                n + (if b then 1 else 0) <= length (name :: names) /\
                (explainBound (evalMap ls) = true -> n = 0 /\ b = false)).
    { intros ls1 Hcases.
      destruct (IH ls1 st1) as [n [b [Hlog2 [Hlen Hb]]]].
      rewrite Hlog2, Hlog. cbn [length].
      destruct Hcases as [[-> Hsame]|[[-> [Hb0 Hb1]]|[-> [Hb0 Hb1]]]].
      - exists n, b. rewrite app_nil_r.
        split; [reflexivity|]. split; [lia|]. intros H. apply Hb. congruence.
      - exists (S n), b. rewrite <- app_assoc.
        split; [reflexivity|]. split; [lia|]. intros H. congruence.
      - destruct (Hb Hb1) as [-> ->]. exists 0, true. cbn. rewrite app_nil_r.
        split; [reflexivity|]. split; [lia|]. intros H. congruence. }
    assert (Hstop : t = [] \/ (explainBound (evalMap ls) = false /\ exists b, t = [b]) ->
              exists (n : nat) (b : bool),
                explainResults (Log st1) =
                  explainResults (Log st) ++ replicate n false
                    ++ (if b then [true] else []) /\
                n + (if b then 1 else 0) <= length (name :: names) /\
                (explainBound (evalMap ls) = true -> n = 0 /\ b = false)).
    { rewrite Hlog. cbn [length]. intros [->|[Hb0 [b ->]]].
      - exists 0, false. split; [reflexivity|]. split; [cbn; lia|]. auto.
      - exists (if b then 0 else 1), b. destruct b; cbn;
          (split; [reflexivity|]); (split; [lia|]); intros H; congruence. }
    destruct r as [[ls1|ls1|e]|m]; cbn [snd]; auto.
Qed.

(** * Further properties of the code *)

(** ** The environment map of [DSN] *)

(** Cutting [k=v] at the first [=] gives back [k] and [v] when [k] has no
    [=] of its own; a text without [=] is cut into itself and nothing. *)
Lemma strings_Cut_char (c : ascii) (k v : string) :
  lacks c k = true ->
  strings_Cut (k +:+ String c v) (String c EmptyString) = (k, v, true).
Proof.
  induction k as [|a k IH].
  - intros _. change (EmptyString +:+ String c v) with (String c v). cbn.
    rewrite Ascii.eqb_refl. destruct v; reflexivity.
  - intros H. cbn in H. apply andb_true_iff in H as [Ha Hk].
    rewrite Ascii.eqb_sym in Ha. apply negb_true_iff in Ha.
    change (String a k +:+ String c v) with (String a (k +:+ String c v)).
    cbn. rewrite Ha. cbn. rewrite (IH Hk). reflexivity.
Qed.

Lemma strings_Cut_absent (c : ascii) (s : string) :
  lacks c s = true ->
  strings_Cut s (String c EmptyString) = (s, EmptyString, false).
Proof.
  induction s as [|a s IH]; cbn; [reflexivity|].
  intros H. apply andb_true_iff in H as [Ha Hs].
  rewrite Ascii.eqb_sym in Ha. apply negb_true_iff in Ha. rewrite Ha. cbn.
  rewrite (IH Hs). reflexivity.
Qed.

Lemma populateEnvmap_app (l1 l2 : list string) (m : gmap string string) :
  populateEnvmap (l1 ++ l2) m = populateEnvmap l2 (populateEnvmap l1 m).
Proof. unfold populateEnvmap. apply foldl_app. Qed.

Lemma populateEnvmap_other (k : string) (l : list string) :
  forall m : gmap string string,
    Forall (fun e => envKey e <> k) l ->
    populateEnvmap l m !! k = m !! k.
Proof.
  induction l as [|e l IH]; intros m Hl; [reflexivity|].
  inversion Hl as [|? ? He Hl']; subst.
  change (populateEnvmap (e :: l) m)
    with (populateEnvmap l (match strings_Cut e "=" with (k0, v, _) => <[k0 := v]> m end)).
  rewrite (IH _ Hl'). unfold envKey in He.
  destruct (strings_Cut e "=") as [[k0 v] f]. cbn in He.
  apply lookup_insert_ne. exact He.
Qed.

Lemma populateEnvmap_nonempty (l : list string) (m : gmap string string) :
  l <> [] -> size (populateEnvmap l m) <> 0.
Proof.
  intros Hl. destruct (exists_last Hl) as [l' [e ->]].
  rewrite populateEnvmap_app. cbn.
  destruct (strings_Cut e "=") as [[k v] f].
  intros H. apply map_size_empty_iff in H. exact (insert_non_empty _ _ _ H).
Qed.

(** X1: the environment is read once.  A call of [DSN] on a map that is
    not empty leaves the map as it is, whatever the environment holds by
    then; and the first call, on the empty map, fills it from an
    environment that is not empty, so that every later call works on that
    first snapshot. *)
Theorem X1_DSN_reads_the_environment_once
    (Replace : string -> gmap string string -> string)
    (environ environ' : list string) (Envmap : gmap string string) (dsn dsn' : string) :
  (size Envmap <> 0 -> DSN Replace environ Envmap dsn = (Replace dsn Envmap, Envmap)) /\
  (environ <> [] ->
   DSN Replace environ' (snd (DSN Replace environ ∅ dsn)) dsn' =
     (Replace dsn' (populateEnvmap environ ∅), populateEnvmap environ ∅)).
Proof.
  split.
  - intros H. unfold DSN. apply Nat.eqb_neq in H. rewrite H. reflexivity.
  - intros H. unfold DSN at 2. cbn [snd]. rewrite map_size_empty. cbn [Nat.eqb].
    unfold DSN. pose proof (populateEnvmap_nonempty environ ∅ H) as Hne.
    apply Nat.eqb_neq in Hne. rewrite Hne. reflexivity.
Qed.

Lemma X1_witness_two_calls :
  DSN (fun dsn m => default dsn (m !! dsn)) ["PGHOST=b"] {["PGHOST" := "a"]} "PGHOST"
    = ("a", {["PGHOST" := "a"]}) /\
  DSN (fun dsn m => default dsn (m !! dsn)) ["PGHOST=b"]
      (snd (DSN (fun dsn m => default dsn (m !! dsn)) ["PGHOST=a"] ∅ "x")) "PGHOST"
    = (default "PGHOST" (populateEnvmap ["PGHOST=a"] ∅ !! "PGHOST"),
       populateEnvmap ["PGHOST=a"] ∅).
Proof.
  split.
  - refine (proj1 (X1_DSN_reads_the_environment_once _ ["PGHOST=b"] []
                     {["PGHOST" := "a"]} "PGHOST" "") _).
    vm_compute. discriminate.
  - refine (proj2 (X1_DSN_reads_the_environment_once (fun dsn m => default dsn (m !! dsn))
                     ["PGHOST=a"] ["PGHOST=b"] ∅ "x" "PGHOST") _).
    discriminate.
Defined.

(** X2: what the filled map holds.  An entry [k=v] of the environment, [k]
    without [=], binds [k] to [v] (the value may contain [=] itself); an
    entry without any [=] binds the whole entry to the empty text; and of
    several entries with one key the last one counts. *)
Theorem X2_populateEnvmap_last_entry_counts
    (pre post : list string) (k v : string) (m : gmap string string) :
  lacks "=" k = true ->
  Forall (fun e => envKey e <> k) post ->
  populateEnvmap (pre ++ (k +:+ "=" +:+ v) :: post) m !! k = Some v /\
  populateEnvmap (pre ++ k :: post) m !! k = Some EmptyString.
Proof.
  intros Hk Hpost. split.
  - rewrite populateEnvmap_app.
    change (populateEnvmap ((k +:+ "=" +:+ v) :: post) (populateEnvmap pre m))
      with (populateEnvmap post
              (match strings_Cut (k +:+ "=" +:+ v) "=" with
               | (k0, v0, _) => <[k0 := v0]> (populateEnvmap pre m) end)).
    rewrite (populateEnvmap_other k post _ Hpost).
    change (k +:+ "=" +:+ v) with (k +:+ String "="%char v).
    rewrite (strings_Cut_char "="%char k v Hk). apply lookup_insert_eq.
  - rewrite populateEnvmap_app.
    change (populateEnvmap (k :: post) (populateEnvmap pre m))
      with (populateEnvmap post
              (match strings_Cut k "=" with
               | (k0, v0, _) => <[k0 := v0]> (populateEnvmap pre m) end)).
    rewrite (populateEnvmap_other k post _ Hpost).
    rewrite (strings_Cut_absent "="%char k Hk). apply lookup_insert_eq.
Qed.

Lemma X2_witness_duplicate_key :
  populateEnvmap (["HOME=/root"; "PGURL=a"] ++ ("PGURL" +:+ "=" +:+ "postgres://h/db?x=1")
                    :: ["USER=root"]) ∅ !! "PGURL" = Some "postgres://h/db?x=1" /\
  populateEnvmap (["HOME=/root"; "PGURL=a"] ++ "PGURL" :: ["USER=root"]) ∅ !! "PGURL"
    = Some EmptyString.
Proof.
  refine (X2_populateEnvmap_last_entry_counts ["HOME=/root"; "PGURL=a"] ["USER=root"]
            "PGURL" "postgres://h/db?x=1" ∅ _ _).
  - reflexivity.
  - repeat constructor. vm_compute. discriminate.
Defined.

(** ** The compiled rule set *)

Lemma compileRules_step (w : World) (c : RuleDef) (defs : list RuleDef)
    (rules0 rules : gmap string rule) :
  compileRules w (c :: defs) rules0 = inr rules ->
  rules0 !! Rule_Name c = None /\ wellFormedDef w c /\
  exists prg, cel_Program w (Rule_Rule c) = inr prg /\
    compileRules w defs (<[Rule_Name c := ruleOf c prg]> rules0) = inr rules.
Proof.
  cbn [compileRules]. unfold wellFormedDef, ruleOf.
  destruct (String.eqb_spec (Rule_Name c) "") as [|Hname]; [discriminate|].
  destruct (rules0 !! Rule_Name c) eqn:Hfree; [discriminate|].
  destruct (String.eqb_spec (Rule_Rule c) "") as [|Hrule]; [discriminate|].
  destruct (cel_Compile w (Rule_Rule c)) eqn:Hc; [discriminate|].
  destruct (cel_Program w (Rule_Rule c)) as [|prg] eqn:Hp; [discriminate|].
  intros H. repeat split; eauto. exists prg. split; [reflexivity|].
  rewrite <- H. f_equal. f_equal.
  destruct (GoStrings.Contains (Rule_Rule c) "postgresql.explain"
            || GoStrings.Contains (Rule_Rule c) "mysql.explain"); reflexivity.
Qed.

Lemma compileRules_content (w : World) (defs : list RuleDef) :
  forall (rules0 rules : gmap string rule) (name : string) (r : rule),
    compileRules w defs rules0 = inr rules ->
    (rules !! name = Some r <->
     rules0 !! name = Some r \/
     exists d prg, In d defs /\ name = Rule_Name d /\
       cel_Program w (Rule_Rule d) = inr prg /\ r = ruleOf d prg).
Proof.
  induction defs as [|c defs IH]; intros rules0 rules name r Hc.
  - cbn in Hc. injection Hc as <-. split; [auto|].
    intros [H|[d [prg [[] _]]]]. exact H.
  - apply compileRules_step in Hc as [Hfree [_ [prg [Hp Hc]]]].
    rewrite (IH _ _ name r Hc). rewrite lookup_insert. split.
    + intros [H|[d [prg' [Hin H]]]].
      * destruct (decide (Rule_Name c = name)) as [<-|Hne].
        -- injection H as <-. right. exists c, prg. cbn. auto.
        -- left. exact H.
      * right. exists d, prg'. cbn. auto.
    + intros [H|[d [prg' [[<-|Hin] [-> [Hp' ->]]]]]].
      * left. destruct (decide (Rule_Name c = name)) as [<-|Hne]; [congruence|exact H].
      * left. rewrite decide_True by reflexivity. congruence.
      * right. exists d, prg'. auto.
Qed.

Lemma compileRules_ok_iff (w : World) (defs : list RuleDef) :
  forall rules0 : gmap string rule,
    (exists rules, compileRules w defs rules0 = inr rules) <->
    NoDup (map Rule_Name defs) /\
    Forall (fun d => rules0 !! Rule_Name d = None /\ wellFormedDef w d) defs.
Proof.
  induction defs as [|c defs IH]; intros rules0.
  - cbn. split; [intros _; split; constructor | intros _; eauto].
  - split.
    + intros [rules Hc]. apply compileRules_step in Hc as [Hfree [Hwf [prg [Hp Hc]]]].
      destruct (proj1 (IH _) (ex_intro _ rules Hc)) as [Hnd Hall].
      cbn [map]. split.
      * constructor; [|exact Hnd]. intros Hin. apply list_elem_of_In in Hin.
        apply in_map_iff in Hin as [d [Hd Hin]].
        rewrite Forall_forall in Hall.
        destruct (Hall d (proj2 (list_elem_of_In _ _) Hin)) as [Hnone _].
        rewrite <- Hd, lookup_insert_eq in Hnone. discriminate.
      * constructor; [auto|]. eapply Forall_impl; [exact Hall|].
        intros d [Hnone Hd]. split; [|exact Hd].
        destruct (decide (Rule_Name c = Rule_Name d)) as [E|E].
        -- rewrite E, lookup_insert_eq in Hnone. discriminate.
        -- rewrite lookup_insert_ne in Hnone by exact E. exact Hnone.
    + cbn [map]. intros [Hnd Hall].
      apply NoDup_cons in Hnd as [Hnotin Hnd].
      apply Forall_cons in Hall as [[Hfree [Hname [Hrule [Hcel [prg Hp]]]]] Hall].
      destruct (proj2 (IH (<[Rule_Name c := ruleOf c prg]> rules0))) as [rules Hc].
      { split; [exact Hnd|]. rewrite Forall_forall in Hall |- *.
        intros d Hd. destruct (Hall d Hd) as [Hnone Hwf]. split; [|exact Hwf].
        rewrite lookup_insert_ne; [exact Hnone|].
        intros E. apply Hnotin. rewrite E.
        apply list_elem_of_In, in_map, list_elem_of_In, Hd. }
      exists rules. cbn [compileRules].
      destruct (String.eqb_spec (Rule_Name c) "") as [|_]; [contradiction|].
      rewrite Hfree.
      destruct (String.eqb_spec (Rule_Rule c) "") as [|_]; [contradiction|].
      rewrite Hcel, Hp. rewrite <- Hc. unfold ruleOf. f_equal. f_equal.
      destruct (GoStrings.Contains (Rule_Rule c) "postgresql.explain"
                || GoStrings.Contains (Rule_Rule c) "mysql.explain"); reflexivity.
Qed.

(** X3: the rules of the configuration compile exactly when their names
    are pairwise different, none is empty or the name of the built-in rule
    [sqlc/db-prepare], no expression is empty, and CEL accepts and builds
    every expression. *)
Theorem X3_rules_compile_iff_well_formed (w : World) (defs : list RuleDef) :
  (exists rules, compileRules w defs builtinRules = inr rules) <->
  NoDup (map Rule_Name defs) /\
  Forall (fun d => Rule_Name d <> RuleDbPrepare /\ wellFormedDef w d) defs.
Proof.
  rewrite compileRules_ok_iff. split; intros [Hnd Hall]; (split; [exact Hnd|]);
    (eapply Forall_impl; [exact Hall|]); intros d [H Hwf]; (split; [|exact Hwf]).
  - intros E. rewrite E in H. unfold builtinRules in H.
    rewrite lookup_singleton_eq in H. discriminate.
  - unfold builtinRules. apply lookup_singleton_ne. congruence.
Qed.

(** X4: the compiled rule set holds the built-in rule under
    [sqlc/db-prepare] and, under the name of each definition, the rule
    built from it, and nothing else.  So the built-in rule is the only one
    that asks for [Prepare] and the only one without a program: no rule is
    both prepared and evaluated. *)
Theorem X4_compiled_rule_set_content
    (w : World) (defs : list RuleDef) (rules : gmap string rule)
    (name : string) (r : rule) :
  compileRules w defs builtinRules = inr rules ->
  (rules !! name = Some r <->
   (name = RuleDbPrepare /\
    r = {| rule_Program := None; Message := EmptyString;
           NeedsPrepare := true; NeedsExplain := false |}) \/
   exists d prg, In d defs /\ name = Rule_Name d /\
     cel_Program w (Rule_Rule d) = inr prg /\ r = ruleOf d prg) /\
  (rules !! name = Some r ->
   (NeedsPrepare r = true <-> name = RuleDbPrepare) /\
   (rule_Program r = None <-> name = RuleDbPrepare)).
Proof.
  intros Hc.
  assert (Hiff : rules !! name = Some r <->
     (name = RuleDbPrepare /\
      r = {| rule_Program := None; Message := EmptyString;
             NeedsPrepare := true; NeedsExplain := false |}) \/
     exists d prg, In d defs /\ name = Rule_Name d /\
       cel_Program w (Rule_Rule d) = inr prg /\ r = ruleOf d prg).
  { rewrite (compileRules_content w defs _ _ name r Hc). unfold builtinRules.
    rewrite lookup_singleton. split; (intros [H|H]; [left|right; exact H]).
    - destruct (decide (RuleDbPrepare = name)) as [<-|]; [|discriminate].
      injection H as <-. auto.
    - destruct H as [-> ->]. rewrite decide_True by reflexivity. reflexivity. }
  split; [exact Hiff|].
  intros Hr. apply Hiff in Hr as [[-> ->]|[d [prg [Hin [-> [Hp ->]]]]]].
  - cbn. tauto.
  - assert (Hne : Rule_Name d <> RuleDbPrepare).
    { destruct (proj1 (compileRules_ok_iff w defs builtinRules) (ex_intro _ rules Hc))
        as [_ Hall].
      rewrite Forall_forall in Hall.
      destruct (Hall d (proj2 (list_elem_of_In _ _) Hin)) as [Hnone _].
      intros E. rewrite E in Hnone. unfold builtinRules in Hnone.
      rewrite lookup_singleton_eq in Hnone. discriminate. }
    cbn. split; split; intros H; first [discriminate | contradiction].
Qed.

Lemma X4_witness_many_rule :
  (NeedsPrepare Sample.many_rule = true <-> "many" = RuleDbPrepare) /\
  (rule_Program Sample.many_rule = None <-> "many" = RuleDbPrepare).
Proof.
  refine (proj2 (X4_compiled_rule_set_content
                   (Sample.world (fun _ => []) None None)
                   [Sample.def "star" Sample.no_select_star_src "avoid select *";
                    Sample.def "many" Sample.many_rows_src ""]
                   (Rules (Sample.checker_of [("star", Sample.star_rule);
                                              ("many", Sample.many_rule)] false))
                   "many" Sample.many_rule _) _).
  - vm_compute. reflexivity.
  - vm_compute. reflexivity.
Defined.

(** ** The connection of a group *)

(** The cases of [connect]. *)
Lemma connect_cases (w : World) (c : checker) (s : SQL) (st : State) :
  match connect w c s st with
  | (Panic _, _) => False
  | (Done (inl err), st') =>
      SQL_Database s <> None /\
      (st' = st \/
       exists uri d e,
         SQL_Database s = Some uri /\ NoDatabase c = false /\
         db_Open w d (shfmt_Replace w uri) = None /\
         db_Ping w d (shfmt_Replace w uri) = Some e /\
         err = Errorf ("database: connection error: " +:+ e) /\
         st' = {| Stderr := Stderr st; Log := Log st ++ [EvOpen d (shfmt_Replace w uri)] |})
  | (Done (inr (prep, expl, driver)), st') =>
      (SQL_Database s = None /\ prep = None /\ expl = None /\ driver = None /\ st' = st) \/
      (exists uri d,
         SQL_Database s = Some uri /\ NoDatabase c = false /\ driver = Some d /\
         st' = {| Stderr := Stderr st; Log := Log st ++ [EvOpen d (shfmt_Replace w uri)] |} /\
         ((SQL_Engine s = EnginePostgreSQL /\ d = "pgx" /\
           prep = Some pgxConn_p /\ expl = Some pgxConn_e) \/
          (SQL_Engine s = EngineMySQL /\ d = "mysql" /\
           prep = Some dbPreparer /\ expl = Some mysqlExplainer) \/
          (SQL_Engine s = EngineSQLite /\ d = "sqlite3" /\
           prep = Some dbPreparer /\ expl = None)))
  end.
Proof.
  assert (Hopen : forall (d : string) (uri : string) (p : preparer) (x : option explainer),
            SQL_Database s = Some uri -> NoDatabase c = false ->
            (SQL_Engine s = EnginePostgreSQL /\ d = "pgx" /\
             Some p = Some pgxConn_p /\ x = Some pgxConn_e) \/
            (SQL_Engine s = EngineMySQL /\ d = "mysql" /\
             Some p = Some dbPreparer /\ x = Some mysqlExplainer) \/
            (SQL_Engine s = EngineSQLite /\ d = "sqlite3" /\
             Some p = Some dbPreparer /\ x = None) ->
            match
              match db_Open w d (shfmt_Replace w uri) with
              | Some err => ret (inl (Errorf ("database: connection error: " +:+ err)))
              | None =>
                  emit (EvOpen d (shfmt_Replace w uri)) ;;;
                  match db_Ping w d (shfmt_Replace w uri) with
                  | Some err =>
                      ret (inl (Errorf ("database: connection error: " +:+ err)))
                  | None => ret (inr (Some p, x, Some d))
                  end
              end st
            with
            | (Panic _, _) => False
            | (Done (inl err), st') =>
                SQL_Database s <> None /\
                (st' = st \/
                 exists uri d e,
                   SQL_Database s = Some uri /\ NoDatabase c = false /\
                   db_Open w d (shfmt_Replace w uri) = None /\
                   db_Ping w d (shfmt_Replace w uri) = Some e /\
                   err = Errorf ("database: connection error: " +:+ e) /\
                   st' = {| Stderr := Stderr st;
                            Log := Log st ++ [EvOpen d (shfmt_Replace w uri)] |})
            | (Done (inr (prep, expl, driver)), st') =>
                (SQL_Database s = None /\ prep = None /\ expl = None /\
                 driver = None /\ st' = st) \/
                (exists uri d,
                   SQL_Database s = Some uri /\ NoDatabase c = false /\
                   driver = Some d /\
                   st' = {| Stderr := Stderr st;
                            Log := Log st ++ [EvOpen d (shfmt_Replace w uri)] |} /\
                   ((SQL_Engine s = EnginePostgreSQL /\ d = "pgx" /\
                     prep = Some pgxConn_p /\ expl = Some pgxConn_e) \/
                    (SQL_Engine s = EngineMySQL /\ d = "mysql" /\
                     prep = Some dbPreparer /\ expl = Some mysqlExplainer) \/
                    (SQL_Engine s = EngineSQLite /\ d = "sqlite3" /\
                     prep = Some dbPreparer /\ expl = None)))
            end).
  { intros d uri p x Hdb Hno Hengine.
    destruct (db_Open w d (shfmt_Replace w uri)) as [e|] eqn:Ho; cbn.
    - split; [rewrite Hdb; discriminate|]. left. reflexivity.
    - unfold bind, emit. destruct (db_Ping w d (shfmt_Replace w uri)) as [e|] eqn:Hp; cbn.
      + split; [rewrite Hdb; discriminate|]. right. exists uri, d, e. auto 10.
      + right. exists uri, d. auto 10. }
  unfold connect. destruct (SQL_Database s) as [uri|] eqn:Hdb; [|left; auto].
  destruct (NoDatabase c) eqn:Hno; [cbn; split; [discriminate|left; reflexivity]|].
  destruct (String.eqb_spec (SQL_Engine s) EnginePostgreSQL) as [Hpg|_].
  { apply Hopen; auto 10. }
  destruct (String.eqb_spec (SQL_Engine s) EngineMySQL) as [Hmy|_].
  { apply Hopen; auto 10. }
  destruct (String.eqb_spec (SQL_Engine s) EngineSQLite) as [Hlite|_].
  { apply Hopen; auto 10. }
  cbn. split; [discriminate|left; reflexivity].
Qed.

(** X5: [connect] never panics.  When it returns an error, either nothing
    has been opened and the state is as before (connections disabled, an
    engine that is not supported, an open that failed), or the open
    succeeded and the ping failed: then one connection has been opened and
    is left open, the return coming before the [defer] of [Close].  When it
    succeeds, a group without a database gets neither a preparer nor an
    explainer; a group with one gets exactly one connection, opened on the
    substituted URI, with the preparer and the explainer of its engine:
    PostgreSQL both on pgx, MySQL both on [database/sql], SQLite a preparer
    and no explainer. *)
Theorem X5_connect_outcomes (w : World) (c : checker) (s : SQL) (st : State) :
  match connect w c s st with
  | (Panic _, _) => False
  | (Done (inl err), st') =>
      SQL_Database s <> None /\
      (st' = st \/
       exists uri d e,
         SQL_Database s = Some uri /\ NoDatabase c = false /\
         db_Open w d (shfmt_Replace w uri) = None /\
         db_Ping w d (shfmt_Replace w uri) = Some e /\
         err = Errorf ("database: connection error: " +:+ e) /\
         st' = {| Stderr := Stderr st; Log := Log st ++ [EvOpen d (shfmt_Replace w uri)] |})
  | (Done (inr (prep, expl, driver)), st') =>
      (SQL_Database s = None /\ prep = None /\ expl = None /\ driver = None /\ st' = st) \/
      (exists uri d,
         SQL_Database s = Some uri /\ NoDatabase c = false /\ driver = Some d /\
         st' = {| Stderr := Stderr st; Log := Log st ++ [EvOpen d (shfmt_Replace w uri)] |} /\
         ((SQL_Engine s = EnginePostgreSQL /\ d = "pgx" /\
           prep = Some pgxConn_p /\ expl = Some pgxConn_e) \/
          (SQL_Engine s = EngineMySQL /\ d = "mysql" /\
           prep = Some dbPreparer /\ expl = Some mysqlExplainer) \/
          (SQL_Engine s = EngineSQLite /\ d = "sqlite3" /\
           prep = Some dbPreparer /\ expl = None)))
  end.
Proof. apply connect_cases. Qed.

(** X6: with the preparer that [connect] hands out, the only statements
    reported as unpreparable are PostgreSQL statements other than DELETE,
    INSERT, SELECT and UPDATE: the last branch of [prepareable], for other
    engines, is never reached with a connection. *)
Theorem X6_unpreparable_only_on_postgresql
    (w : World) (c : checker) (s : SQL) (st st' : State)
    (p : preparer) (expl : option explainer) (driver : option string) (raw : Stmt) :
  connect w c s st = (Done (inr (Some p, expl, driver)), st') ->
  prepareable s raw = false ->
  SQL_Engine s = EnginePostgreSQL /\
  raw <> DeleteStmt /\ raw <> InsertStmt /\ raw <> SelectStmt /\ raw <> UpdateStmt.
Proof.
  intros Hc Hp. pose proof (connect_cases w c s st) as H. rewrite Hc in H.
  destruct (prepareable_false s raw Hp) as [Hpg|[Hn1 [Hn2 Hn3]]]; [exact Hpg|].
  destruct H as [[_ [H _]]|[uri [d [_ [_ [_ [_ [[E _]|[[E _]|[E _]]]]]]]]]];
    [discriminate|contradiction..].
Qed.

Lemma X6_witness_vacuum :
  SQL_Engine (Sample.group EnginePostgreSQL (Some "postgres://localhost/db") [RuleDbPrepare])
    = EnginePostgreSQL /\
  OtherStmt "VacuumStmt" <> DeleteStmt /\ OtherStmt "VacuumStmt" <> InsertStmt /\
  OtherStmt "VacuumStmt" <> SelectStmt /\ OtherStmt "VacuumStmt" <> UpdateStmt.
Proof.
  refine (X6_unpreparable_only_on_postgresql
            (Sample.world (fun _ => [Sample.Vacuum]) None None)
            (Sample.checker_of [] false)
            (Sample.group EnginePostgreSQL (Some "postgres://localhost/db") [RuleDbPrepare])
            st0 _ pgxConn_p (Some pgxConn_e) (Some "pgx") (OtherStmt "VacuumStmt") _ _).
  - vm_compute. reflexivity.
  - reflexivity.
Defined.


(** ** What a run adds to the error stream and to the call history *)

Lemma connTrace_app (l1 l2 : list Event) :
  connTrace (l1 ++ l2) = connTrace l1 ++ connTrace l2.
Proof.
  induction l1 as [|e l1 IH]; [reflexivity|].
  destruct e; cbn; rewrite IH; reflexivity.
Qed.

Lemma grow_nil (st : State) : grow st [] [] = st.
Proof. destruct st. unfold grow. cbn. rewrite !app_nil_r. reflexivity. Qed.

Lemma grow_grow (st : State) (l1 l2 : list string) (e1 e2 : list Event) :
  grow (grow st l1 e1) l2 e2 = grow st (l1 ++ l2) (e1 ++ e2).
Proof. unfold grow. cbn. rewrite !app_assoc. reflexivity. Qed.

Lemma log_grow (st : State) (evs : list Event) :
  {| Stderr := Stderr st; Log := Log st ++ evs |} = grow st [] evs.
Proof. unfold grow. rewrite app_nil_r. reflexivity. Qed.

Lemma err_grow (st : State) (lines : list string) :
  {| Stderr := Stderr st ++ lines; Log := Log st |} = grow st lines [].
Proof. unfold grow. rewrite app_nil_r. reflexivity. Qed.

Lemma Prepare_grow (w : World) (p : preparer) (name query : string) (st : State) :
  exists evs, snd (Prepare w p name query st) = grow st [] evs /\ connTrace evs = [].
Proof.
  destruct p; cbn [Prepare].
  - unfold pgxConn_Prepare, bind, history, emit, ret. cbn. rewrite log_grow. eauto.
  - unfold dbPreparer_Prepare, PrepareContext, Stmt_Close, bind, history, emit, ret, panic.
    cbn. destruct (sql_PrepareContext w (Log st) query); cbn.
    + rewrite log_grow. eauto.
    + rewrite <- app_assoc, log_grow. eauto.
Qed.

Lemma pgxConn_Explain_grow
    (w : World) (query : string) (args : list PluginParameter) (st : State) :
  snd (pgxConn_Explain w query args st) =
    grow st [] [EvQueryRow
                  ("EXPLAIN (ANALYZE false, VERBOSE, COSTS, SETTINGS, BUFFERS, FORMAT JSON) "
                   +:+ query) (replicate (length args) any_nil)].
Proof.
  rewrite <- log_grow.
  unfold pgxConn_Explain, bind, history, emit, ret, panic. cbn.
  destruct (pgx_QueryRow_Scan w (Log st) _ _) as [err|[|result0 result]];
    try reflexivity.
  destruct (pjson_Unmarshal_PostgreSQLExplain w result0); reflexivity.
Qed.

Lemma mysqlExplainer_Explain_grow
    (w : World) (query : string) (args : list PluginParameter) (st : State) :
  snd (mysqlExplainer_Explain w query args st) =
    grow st [] [EvQueryRowContext ("EXPLAIN FORMAT=JSON " +:+ query)
                  (replicate (length args) any_nil)].
Proof.
  rewrite <- log_grow.
  unfold mysqlExplainer_Explain, bind, history, emit, ret, panic. cbn.
  destruct (sql_QueryRowContext_Scan w (Log st) _ _) as [err|result];
    try reflexivity.
  destruct (pjson_Unmarshal_MySQLExplain w result) as [err|explain];
    try reflexivity.
  destruct (MySQLExplain_QueryBlock explain) as [block|]; try reflexivity.
  destruct (negb _); reflexivity.
Qed.

Lemma Explain_grow (w : World) (e : explainer) (query : string)
    (args : list PluginParameter) (st : State) :
  exists evs, snd (Explain w e query args st) = grow st [] evs /\ connTrace evs = [].
Proof.
  unfold Explain. destruct e.
  - pose proof (pgxConn_Explain_grow w query args st) as H.
    destruct (pgxConn_Explain w query args st) as [r st1]. cbn in H. subst st1.
    cbn [snd]. rewrite log_grow, grow_grow. eauto.
  - pose proof (mysqlExplainer_Explain_grow w query args st) as H.
    destruct (mysqlExplainer_Explain w query args st) as [r st1]. cbn in H. subst st1.
    cbn [snd]. rewrite log_grow, grow_grow. eauto.
Qed.

Lemma append_assoc (a b c : string) : (a +:+ b) +:+ c = a +:+ b +:+ c.
Proof.
  induction a as [|x a IH]; [reflexivity|].
  change (String x ((a +:+ b) +:+ c) = String x (a +:+ b +:+ c)). rewrite IH. reflexivity.
Qed.

Lemma diagLine_tail (q : Query) (tail rest : string) :
  tail = rest +:+ nl ->
  diagLine q (Query_Filename q +:+ ": " +:+ Query_Name q +:+ ": " +:+ tail).
Proof. intros ->. exists rest. reflexivity. Qed.

Lemma ends1 (x a : string) : x +:+ a +:+ nl = (x +:+ a) +:+ nl.
Proof. symmetry. apply append_assoc. Qed.

Lemma ends2 (x a b : string) : x +:+ a +:+ b +:+ nl = (x +:+ a +:+ b) +:+ nl.
Proof. rewrite !append_assoc. reflexivity. Qed.

Ltac diag_line :=
  eapply diagLine_tail;
  first [exact (ends2 _ _ _) | exact (ends1 _ _) | exact eq_refl].

Ltac one_line :=
  eexists _, _; split; [reflexivity|];
  split; [first [reflexivity | assumption | (rewrite app_nil_r; assumption)]|];
  split; [cbn [app]; repeat (constructor; [diag_line|]); constructor
         |cbn; auto 10].

Section Frames.

Variables (w : World) (c : checker) (s : SQL).
Variables (prep : option preparer) (expl : option explainer).
Variables (i : nat) (cq : CompiledQuery).

Lemma prepareStep_frame (name : string) (rule : rule) (ls : loopState)
    (st st' : State) (r : outcome flow) :
  prepareStep w s prep i cq name rule ls st = (r, st') ->
  exists lines evs,
    st' = grow st lines evs /\ connTrace evs = [] /\
    Forall (diagLine (PQuery cq)) lines /\
    match r with
    | Done (Proceed ls') => ls' = ls /\ lines = []
    | Done (Continue ls') => ls' = set_errored ls /\ length lines = 1
    | Done (Return _) => False
    | Panic _ => lines = []
    end.
Proof.
  unfold prepareStep.
  destruct (NeedsPrepare rule);
    [|intros [= <- <-]; exists [], []; rewrite grow_nil; auto].
  destruct prep as [p|].
  2: { unfold bind, Fprintf, ret. rewrite err_grow. intros [= <- <-]. one_line. }
  destruct (negb _).
  { unfold bind, Fprintf, ret. rewrite err_grow. intros [= <- <-]. one_line. }
  unfold bind, history.
  destruct (Prepare_grow w p
              ("sqlc_vet_" +:+ fmt_d (time_Now_Unix w (Log st)) +:+ "_"
               +:+ fmt_d (Z.of_nat i))
              (Query_Text (PQuery cq)) st) as [evs [Hst Hconn]].
  destruct (Prepare w p _ _ st) as [[[err|]|m] st1]; cbn in Hst; subst st1.
  - unfold Fprintf, ret. rewrite err_grow, grow_grow. intros [= <- <-]. one_line.
  - intros [= <- <-]. exists [], evs. auto.
  - intros [= <- <-]. exists [], evs. auto.
Qed.

Lemma explainStep_frame (name : string) (rule : rule) (ls : loopState)
    (st st' : State) (r : outcome flow) :
  explainStep w expl cq name rule ls st = (r, st') ->
  exists lines evs,
    st' = grow st lines evs /\ connTrace evs = [] /\
    Forall (diagLine (PQuery cq)) lines /\
    match r with
    | Done (Proceed ls') =>
        lines = [] /\ errored ls' = errored ls /\
        evalMap ls' !! "query" = evalMap ls !! "query" /\
        evalMap ls' !! "config" = evalMap ls !! "config"
    | Done (Continue ls') => ls' = set_errored ls /\ length lines = 1
    | Done (Return _) => False
    | Panic _ => lines = []
    end.
Proof.
  unfold explainStep.
  destruct (NeedsExplain rule && _);
    [|intros [= <- <-]; exists [], []; rewrite grow_nil; auto 10].
  destruct expl as [x|].
  2: { unfold bind, Fprintf, ret. rewrite err_grow. intros [= <- <-]. one_line. }
  unfold bind.
  destruct (Explain_grow w x (Query_Text (PQuery cq)) (Query_Params (PQuery cq)) st)
    as [evs [Hst Hconn]].
  destruct (Explain w x _ _ st) as [[[err|out]|m] st1]; cbn in Hst; subst st1.
  - unfold Fprintf, ret. rewrite err_grow, grow_grow. intros [= <- <-]. one_line.
  - intros [= <- <-]. exists [], evs. cbn.
    rewrite !lookup_insert_ne by discriminate. auto 10.
  - intros [= <- <-]. exists [], evs. auto.
Qed.

Lemma evalStep_frame (name : string) (rule : rule) (prg : Program) (ls : loopState)
    (st st' : State) (r : outcome flow) :
  evalStep cq name rule prg ls st = (r, st') ->
  exists lines,
    st' = grow st lines [] /\ Forall (diagLine (PQuery cq)) lines /\
    match r with
    | Done (Proceed ls') =>
        evalMap ls' = evalMap ls /\
        ((lines = [] /\ errored ls' = errored ls) \/
         (length lines = 1 /\ errored ls' = true))
    | Done (Continue _) => False
    | Done (Return _) => lines = []
    | Panic _ => False
    end.
Proof.
  unfold evalStep.
  destruct (prg (evalMap ls)) as [err|[[|]| | | | |]];
    try (intros [= <- <-]; exists []; rewrite grow_nil; auto 10).
  unfold bind, Fprintf, ret.
  destruct (Message rule =? ""); rewrite err_grow; intros [= <- <-].
  - eexists. split; [reflexivity|]. split.
    + constructor; [diag_line|constructor].
    + split; [reflexivity|]. right. split; reflexivity.
  - eexists. split; [reflexivity|]. split.
    + constructor; [diag_line|constructor].
    + split; [reflexivity|]. right. split; reflexivity.
Qed.

(** What the body of the rule loop does to the state and to the flag: it
    makes calls, none of which opens or closes a connection, and writes at
    most one line, a line about the query; when it writes one the flag is
    set, and a set flag stays set; it keeps the entries [query] and
    [config] of [evalMap]. *)
Lemma checkRule_frame (name : string) (ls : loopState)
    (st st' : State) (r : outcome flow) :
  checkRule w c s prep expl i cq name ls st = (r, st') ->
  exists lines evs,
    st' = grow st lines evs /\ connTrace evs = [] /\
    Forall (diagLine (PQuery cq)) lines /\
    match r with
    | Done (Proceed ls') | Done (Continue ls') =>
        evalMap ls' !! "query" = evalMap ls !! "query" /\
        evalMap ls' !! "config" = evalMap ls !! "config" /\
        ((lines = [] /\ errored ls' = errored ls) \/
         (length lines = 1 /\ errored ls' = true))
    | _ => lines = []
    end.
Proof.
  unfold checkRule.
  destruct (Rules c !! name) as [rule|];
    [|intros [= <- <-]; exists [], []; rewrite grow_nil; auto].
  unfold bind at 1.
  destruct (prepareStep w s prep i cq name rule ls st) as [r1 st1] eqn:E1.
  apply prepareStep_frame in E1 as [l1 [e1 [-> [Hc1 [Hd1 Hr1]]]]].
  destruct r1 as [[ls1|ls1|e]|m]; try contradiction.
  - destruct Hr1 as [-> ->].
    destruct (rule_Program rule) as [prg|].
    + unfold bind.
      destruct (explainStep w expl cq name rule ls (grow st [] e1)) as [r2 st2] eqn:E2.
      apply explainStep_frame in E2 as [l2 [e2 [-> [Hc2 [Hd2 Hr2]]]]].
      rewrite grow_grow. cbn [app].
      assert (Hconn : connTrace (e1 ++ e2) = [])
        by (rewrite connTrace_app, Hc1, Hc2; reflexivity).
      destruct r2 as [[ls2|ls2|e]|m]; try contradiction.
      * destruct Hr2 as [-> [Herr [Hq Hcfg]]].
        intros E3. apply evalStep_frame in E3 as [l3 [-> [Hd3 Hr3]]].
        rewrite grow_grow. cbn [app]. rewrite app_nil_r.
        exists l3, (e1 ++ e2). repeat split; auto.
        destruct r as [[ls3|ls3|e]|m]; try contradiction; auto.
        destruct Hr3 as [Hm Hcases]. rewrite Hm, Herr in *. auto.
      * intros [= <- <-]. destruct Hr2 as [-> Hlen].
        exists l2, (e1 ++ e2). cbn. auto 10.
      * intros [= <- <-]. exists l2, (e1 ++ e2). auto.
    + intros [= <- <-]. exists [], e1. auto 10.
  - intros [= <- <-]. destruct Hr1 as [-> Hlen]. exists l1, e1. cbn. auto 10.
  - intros [= <- <-]. exists l1, e1. auto.
Qed.

End Frames.

Section LoopFrames.

Variables (w : World) (c : checker) (s : SQL).
Variables (prep : option preparer) (expl : option explainer).

Lemma checkRules_frame (i : nat) (cq : CompiledQuery) (names : list string) :
  forall (ls : loopState) (st st' : State) (r : outcome (error + loopState)),
    checkRules w c s prep expl i cq names ls st = (r, st') ->
    exists lines evs,
      st' = grow st lines evs /\ connTrace evs = [] /\
      Forall (diagLine (PQuery cq)) lines /\ length lines <= length names /\
      match r with
      | Done (inr ls') =>
          evalMap ls' !! "query" = evalMap ls !! "query" /\
          evalMap ls' !! "config" = evalMap ls !! "config" /\
          ((lines = [] /\ errored ls' = errored ls) \/
           (lines <> [] /\ errored ls' = true))
      | _ => True
      end.
Proof.
  induction names as [|name names IH]; intros ls st st' r; cbn [checkRules].
  - intros [= <- <-]. exists [], []. rewrite grow_nil. cbn. auto 10.
  - unfold bind.
    destruct (checkRule w c s prep expl i cq name ls st) as [r1 st1] eqn:E1.
    apply checkRule_frame in E1 as [l1 [e1 [-> [Hc1 [Hd1 Hr1]]]]].
    assert (Hnext : forall ls1,
              evalMap ls1 !! "query" = evalMap ls !! "query" /\
              evalMap ls1 !! "config" = evalMap ls !! "config" /\
              ((l1 = [] /\ errored ls1 = errored ls) \/
               (length l1 = 1 /\ errored ls1 = true)) ->
              checkRules w c s prep expl i cq names ls1 (grow st l1 e1) = (r, st') ->
              exists lines evs,
                st' = grow st lines evs /\ connTrace evs = [] /\
                Forall (diagLine (PQuery cq)) lines /\
                length lines <= length (name :: names) /\
                match r with
                | Done (inr ls') =>
                    evalMap ls' !! "query" = evalMap ls !! "query" /\
                    evalMap ls' !! "config" = evalMap ls !! "config" /\
                    ((lines = [] /\ errored ls' = errored ls) \/
                     (lines <> [] /\ errored ls' = true))
                | _ => True
                end).
    { intros ls1 [Hq [Hcfg Hflag]] E2.
      apply IH in E2 as [l2 [e2 [-> [Hc2 [Hd2 [Hlen2 Hr2]]]]]].
      rewrite grow_grow. exists (l1 ++ l2), (e1 ++ e2).
      split; [reflexivity|]. split; [rewrite connTrace_app, Hc1, Hc2; reflexivity|].
      split; [apply Forall_app; auto|].
      split; [rewrite length_app; cbn [length];
              destruct Hflag as [[-> _]|[Hl1 _]]; cbn; lia|].
      destruct r as [[e|ls2]|m]; auto.
      destruct Hr2 as [Hq2 [Hcfg2 Hflag2]].
      split; [congruence|]. split; [congruence|].
      destruct Hflag as [[-> Hsame1]|[Hl1 Htrue1]].
      - cbn [app]. destruct Hflag2 as [[-> Hsame]|[Hne Htrue]];
          [left; split; [reflexivity|congruence] | right; auto].
      - right. split; [destruct l1; [discriminate Hl1|discriminate]|].
        destruct Hflag2 as [[_ Hsame]|[_ Htrue]]; congruence. }
    destruct r1 as [[ls1|ls1|e]|m].
    + apply Hnext. exact Hr1.
    + apply Hnext. exact Hr1.
    + intros [= <- <-]. subst l1. exists [], e1. cbn. repeat split; auto; lia.
    + intros [= <- <-]. subst l1. exists [], e1. cbn. repeat split; auto; lia.
Qed.

Lemma checkQueries_frame (cfg : VetConfig) (queries : list CompiledQuery) :
  forall (i : nat) (errd : bool) (st st' : State) (r : outcome (error + bool)),
    checkQueries w c s prep expl cfg i queries errd st = (r, st') ->
    exists lines evs,
      st' = grow st lines evs /\ connTrace evs = [] /\
      Forall (fun line => exists cq, In cq queries /\ diagLine (PQuery cq) line) lines /\
      length lines <= length queries * length (SQL_Rules s) /\
      match r with
      | Done (inr errd') =>
          (lines = [] /\ errd' = errd) \/ (lines <> [] /\ errd' = true)
      | _ => True
      end.
Proof.
  induction queries as [|cq queries IH]; intros i errd st st' r; cbn [checkQueries].
  - intros [= <- <-]. exists [], []. rewrite grow_nil. cbn. auto 10.
  - assert (Hweaken : forall lines : list string,
              Forall (fun line => exists cq0, In cq0 queries /\ diagLine (PQuery cq0) line)
                lines ->
              Forall (fun line => exists cq0, In cq0 (cq :: queries) /\
                                              diagLine (PQuery cq0) line) lines).
    { intros lines H. eapply Forall_impl; [exact H|].
      intros line [cq0 [Hin Hd]]. exists cq0. split; [right; exact Hin|exact Hd]. }
    destruct (default false (Flags cq !! QueryFlagSqlcVetDisable)).
    { intros E. apply IH in E as [l [e [-> [Hc [Hd [Hlen Hr]]]]]].
      exists l, e. repeat split; auto. cbn [length]. lia. }
    unfold bind.
    destruct (checkRules w c s prep expl i cq (SQL_Rules s) _ st) as [r1 st1] eqn:E1.
    apply checkRules_frame in E1 as [l1 [e1 [-> [Hc1 [Hd1 [Hlen1 Hr1]]]]]].
    assert (Hd1' : Forall (fun line => exists cq0, In cq0 (cq :: queries) /\
                                                  diagLine (PQuery cq0) line) l1).
    { eapply Forall_impl; [exact Hd1|]. intros line Hd. exists cq. split; [left|]; auto. }
    destruct r1 as [[e|[errd1 em1]]|m].
    + intros [= <- <-]. exists l1, e1. repeat split; auto. cbn [length]. lia.
    + cbn in Hr1. destruct Hr1 as [_ [_ Hflag]].
      intros E2. apply IH in E2 as [l2 [e2 [-> [Hc2 [Hd2 [Hlen2 Hr2]]]]]].
      rewrite grow_grow. exists (l1 ++ l2), (e1 ++ e2).
      split; [reflexivity|]. split; [rewrite connTrace_app, Hc1, Hc2; reflexivity|].
      split; [apply Forall_app; auto|].
      split; [rewrite length_app; cbn [length]; lia|].
      destruct r as [[e|errd2]|m]; auto.
      destruct Hflag as [[-> Hsame1]|[Hne1 Htrue1]].
      * cbn [app]. destruct Hr2 as [[-> Hsame]|[Hne Htrue]];
          [left; split; [reflexivity|congruence] | right; auto].
      * right. split; [destruct l1; [contradiction|discriminate]|].
        destruct Hr2 as [[_ Hsame]|[_ Htrue]]; congruence.
    + intros [= <- <-]. exists l1, e1. repeat split; auto. cbn [length]. lia.
Qed.

End LoopFrames.

(** X7: the report of a group.  One pass of the body of the rule loop, for
    one query and one rule, only appends to the error stream and writes at
    most one line, which begins with the file and the name of the query and
    ends the line; when the pass goes on to the next rule, the flag is set
    if a line was written and is otherwise the flag of before.  So the
    query loop writes at most one line for each pair of a query and a rule,
    every line about one of its queries, and when it returns no error it
    returns a set flag if it wrote anything and otherwise the flag it was
    started with. *)
Theorem X7_one_line_per_query_and_rule
    (w : World) (c : checker) (s : SQL)
    (prep : option preparer) (expl : option explainer) (cfg : VetConfig)
    (i : nat) (queries : list CompiledQuery) (errd : bool) (st : State) :
  (forall (j : nat) (cq : CompiledQuery) (name : string) (ls : loopState) (stA : State),
   exists lines,
     Stderr (snd (checkRule w c s prep expl j cq name ls stA)) = Stderr stA ++ lines /\
     length lines <= 1 /\
     Forall (diagLine (PQuery cq)) lines /\
     forall ls',
       fst (checkRule w c s prep expl j cq name ls stA) = Done (Proceed ls') \/
       fst (checkRule w c s prep expl j cq name ls stA) = Done (Continue ls') ->
       (lines = [] /\ errored ls' = errored ls) \/ (lines <> [] /\ errored ls' = true)) /\
  exists lines,
    Stderr (snd (checkQueries w c s prep expl cfg i queries errd st)) = Stderr st ++ lines /\
    length lines <= length queries * length (SQL_Rules s) /\
    Forall (fun line => exists cq, In cq queries /\ diagLine (PQuery cq) line) lines /\
    forall errd',
      fst (checkQueries w c s prep expl cfg i queries errd st) = Done (inr errd') ->
      (lines = [] /\ errd' = errd) \/ (lines <> [] /\ errd' = true).
Proof.
  split.
  - intros j cq name ls stA.
    destruct (checkRule w c s prep expl j cq name ls stA) as [r st'] eqn:E.
    apply checkRule_frame in E as [lines [evs [-> [_ [Hd Hr]]]]].
    exists lines. cbn [fst snd]. split; [reflexivity|].
    assert (Hcases : forall ls',
              evalMap ls' !! "query" = evalMap ls !! "query" /\
              evalMap ls' !! "config" = evalMap ls !! "config" /\
              ((lines = [] /\ errored ls' = errored ls) \/
               (length lines = 1 /\ errored ls' = true)) ->
              length lines <= 1 /\
              ((lines = [] /\ errored ls' = errored ls) \/
               (lines <> [] /\ errored ls' = true))).
    { intros ls' [_ [_ [[Hl Hsame]|[Hl Htrue]]]].
      - rewrite Hl. cbn. split; [lia|]. left. split; [reflexivity|exact Hsame].
      - split; [lia|]. right. split; [|exact Htrue].
        destruct lines; [discriminate Hl|discriminate]. }
    destruct r as [[ls1|ls1|e]|m].
    + destruct (Hcases _ Hr) as [Hlen Hflag]. repeat split; auto.
      intros ls' [[= <-]|H]; [exact Hflag|discriminate].
    + destruct (Hcases _ Hr) as [Hlen Hflag]. repeat split; auto.
      intros ls' [H|[= <-]]; [discriminate|exact Hflag].
    + subst lines. cbn. repeat split; auto. intros ls' [H|H]; discriminate.
    + subst lines. cbn. repeat split; auto. intros ls' [H|H]; discriminate.
  - destruct (checkQueries w c s prep expl cfg i queries errd st) as [r st'] eqn:E.
    apply checkQueries_frame in E as [lines [evs [-> [_ [Hd [Hlen Hr]]]]]].
    exists lines. cbn. repeat split; auto.
    intros errd' ->. exact Hr.
Qed.

(** ** The check of a group and the run *)

Lemma checkSQL_frame (w : World) (c : checker) (s : SQL)
    (st st' : State) (r : outcome (option error)) :
  checkSQL w c s st = (r, st') ->
  exists lines evs,
    st' = grow st lines evs /\
    (connTrace evs = [] \/
     (exists d url, connTrace evs = [EvOpen d url; EvClose d]) \/
     (exists d url e,
        connTrace evs = [EvOpen d url] /\ db_Ping w d url = Some e /\
        r = Done (Some (Errorf ("database: connection error: " +:+ e))))) /\
    (SQL_Database s = None -> connTrace evs = []) /\
    match r with
    | Done None => lines = []
    | _ => True
    end.
Proof.
  unfold checkSQL. destruct (parse w s) as [result|];
    [|intros [= <- <-]; exists [], []; rewrite grow_nil; auto].
  unfold bind at 1. pose proof (connect_cases w c s st) as Hconn.
  destruct (connect w c s st) as [[[e|[[prep expl] driver]]|m] st1]; [| |contradiction].
  { destruct Hconn as [Hdb [->|[uri [d [e0 [Hu [_ [_ [Hp [-> ->]]]]]]]]]];
      intros [= <- <-].
    - exists [], []. rewrite grow_nil. split; [reflexivity|].
      split; [left; reflexivity|]. split; [reflexivity|exact I].
    - exists [], [EvOpen d (shfmt_Replace w uri)]. rewrite log_grow.
      split; [reflexivity|]. split; [right; right; eauto 10|].
      split; [intros H; contradiction|exact I]. }
  unfold defer, bind.
  destruct (checkQueries w c s prep expl _ 0 (Result_Queries result) false st1)
    as [r1 st2] eqn:E.
  apply checkQueries_frame in E as [lines [evs [-> [Hc [_ [_ Hr]]]]]].
  assert (Hlines : forall r2 : outcome (option error),
            r2 = match r1 with
                 | Done (inl err) => Done (Some err)
                 | Done (inr true) => Done (Some ErrFailedChecks)
                 | Done (inr false) => Done None
                 | Panic msg => Panic msg
                 end ->
            match r2 with Done None => lines = [] | _ => True end).
  { intros r2 ->. destruct r1 as [[err|[|]]|msg]; auto.
    destruct Hr as [[Hl _]|[_ H]]; [exact Hl|discriminate]. }
  destruct Hconn as [[Hdb [_ [_ [-> ->]]]]|[uri [d [Hdb [_ [-> [-> _]]]]]]].
  - intros H. exists lines, evs. split; [|split; [auto|split; [auto|]]].
    + destruct r1 as [[err|[|]]|msg]; injection H as _ <-; reflexivity.
    + apply Hlines. destruct r1 as [[err|[|]]|msg]; injection H as <- _; reflexivity.
  - intros H.
    exists lines, (EvOpen d (shfmt_Replace w uri) :: evs ++ [EvClose d]).
    assert (Ht : connTrace (EvOpen d (shfmt_Replace w uri) :: evs ++ [EvClose d])
                 = [EvOpen d (shfmt_Replace w uri); EvClose d]).
    { cbn. rewrite connTrace_app, Hc. reflexivity. }
    split; [|split; [right; left; eauto|split; [rewrite Hdb; discriminate|]]].
    + assert (Hst : st' = snd (close (Some d)
                                 (grow {| Stderr := Stderr st;
                                          Log := Log st ++ [EvOpen d (shfmt_Replace w uri)] |}
                                    lines evs)))
        by (destruct r1 as [[err|[|]]|msg]; injection H as _ <-; reflexivity).
      rewrite Hst. cbn [close]. unfold emit. cbn [snd].
      rewrite !log_grow, !grow_grow. cbn [app]. rewrite app_nil_r. reflexivity.
    + apply Hlines. destruct r1 as [[err|[|]]|msg]; injection H as <- _; reflexivity.
Qed.

(** X8: the connection of a group.  The loops of [checkSQL] never open or
    close a connection.  A group without a database opens none.  Once the
    connection of a group has been opened and pinged, it is closed as the
    last call, whether [checkSQL] ends by a return or by a panic of its
    loops.  One path leaves a connection open: when the ping fails,
    [checkSQL] returns the connection error before the [defer] of [Close]
    and the opened connection is not closed. *)
Theorem X8_checkSQL_closes_what_it_opens
    (w : World) (c : checker) (s : SQL) (st : State) :
  exists t,
    connTrace (Log (snd (checkSQL w c s st))) = connTrace (Log st) ++ t /\
    (t = [] \/
     (exists d url, t = [EvOpen d url; EvClose d]) \/
     (exists d url e,
        t = [EvOpen d url] /\ db_Ping w d url = Some e /\
        fst (checkSQL w c s st)
          = Done (Some (Errorf ("database: connection error: " +:+ e))))) /\
    (SQL_Database s = None -> t = []).
Proof.
  destruct (checkSQL w c s st) as [r st'] eqn:E.
  apply checkSQL_frame in E as [lines [evs [-> [Hc [Hdb _]]]]].
  exists (connTrace evs). cbn. rewrite connTrace_app. auto.
Qed.

(** The path that leaves a connection open, on an input: the server accepts
    the connection and fails the ping, [checkSQL] returns the connection
    error, and the history holds the open with no close after it. *)
Example checkSQL_failed_ping_leaves_the_connection_open :
  let w := Sample.failing_ping (Sample.world (fun _ => [Sample.GetUser]) None None)
             "timeout" in
  let s := Sample.group EnginePostgreSQL (Some "postgres://localhost/db") [RuleDbPrepare] in
  checkSQL w (Sample.checker_of [] false) s st0 =
    (Done (Some (Errorf "database: connection error: timeout")),
     {| Stderr := []; Log := [EvOpen "pgx" "postgres://localhost/db"] |}) /\
  fst (RunE w false {| Conf_Rules := []; Conf_SQL := [s] |} st0) = Done 1%Z.
Proof. split; vm_compute; reflexivity. Qed.

Lemma vetGroups_frame (w : World) (c : checker) (sqls : list SQL) :
  forall (errd errd' : bool) (st st' : State),
    vetGroups w c sqls errd st = (Done errd', st') ->
    (Stderr st' = Stderr st /\ errd' = errd) \/ errd' = true.
Proof.
  induction sqls as [|s sqls IH]; intros errd errd' st st'; cbn [vetGroups].
  - intros [= <- <-]. auto.
  - unfold bind at 1. destruct (checkSQL w c s st) as [[[err|]|m] st1] eqn:E;
      [| |discriminate].
    + unfold bind. destruct (negb (is_ErrFailedChecks err)); cbn;
        intros H; right; exact (vetGroups_flag_stays _ _ _ _ _ _ H).
    + apply checkSQL_frame in E as [lines [evs [-> [_ [_ -> ]]]]].
      intros H. apply IH in H as [[Hs -> ]| -> ]; [left|right; reflexivity].
      split; [|reflexivity]. rewrite Hs. cbn. apply app_nil_r.
Qed.

(** X9: the exit status and the error stream.  A run that does not panic
    exits with 0 or with 1, and when it exits with 0 the rules compiled
    and nothing was written to the error stream. *)
Theorem X9_exit_zero_means_nothing_written
    (w : World) (noDatabase : bool) (conf : Config) (st : State) :
  match RunE w noDatabase conf st with
  | (Done code, st') =>
      (code = 0%Z \/ code = 1%Z) /\
      (code = 0%Z ->
       Stderr st' = Stderr st /\
       exists rules, compileRules w (Conf_Rules conf) builtinRules = inr rules)
  | (Panic _, _) => True
  end.
Proof.
  unfold RunE, Vet, bind.
  destruct (compileRules w (Conf_Rules conf) builtinRules) as [err|rules].
  { cbn. destruct (negb (is_ErrFailedChecks err)); cbn; split; auto; discriminate. }
  destruct (vetGroups w _ (Conf_SQL conf) false st) as [[[|]|m] st'] eqn:E; cbn; auto.
  - split; [auto|discriminate].
  - split; [auto|]. intros _.
    apply vetGroups_frame in E as [[Hs _]|H]; [|discriminate]. eauto.
Qed.

Lemma checkQueries_no_rules (w : World) (c : checker) (s : SQL)
    (prep : option preparer) (expl : option explainer) (cfg : VetConfig)
    (queries : list CompiledQuery) :
  SQL_Rules s = [] ->
  forall (i : nat) (errd : bool) (st : State),
    checkQueries w c s prep expl cfg i queries errd st = (Done (inr errd), st).
Proof.
  intros Hrules. induction queries as [|cq queries IH]; intros i errd st;
    cbn [checkQueries]; [reflexivity|].
  destruct (default false (Flags cq !! QueryFlagSqlcVetDisable)); [apply IH|].
  rewrite Hrules. cbn. apply IH.
Qed.

(** X10: nothing to check.  For a group whose rule list is empty, or all
    of whose queries carry the disable flag, the check depends on the
    connection alone: if [connect] fails its error is returned, and if not
    the result is [nil], with nothing written and no call made but the
    closing of the connection.  This holds whatever the rule list names,
    rules that do not exist included. *)
Theorem X10_nothing_to_check
    (w : World) (c : checker) (s : SQL) (result : Result) (st : State) :
  parse w s = Some result ->
  SQL_Rules s = [] \/
  Forall (fun cq => default false (Flags cq !! QueryFlagSqlcVetDisable) = true)
    (Result_Queries result) ->
  checkSQL w c s st =
    match connect w c s st with
    | (Done (inr (_, _, driver)), st1) => (Done None, snd (close driver st1))
    | (Done (inl err), st1) => (Done (Some err), st1)
    | (Panic m, st1) => (Panic m, st1)
    end.
Proof.
  intros Hparse Hnothing. unfold checkSQL. rewrite Hparse. unfold bind at 1.
  destruct (connect w c s st) as [[[e|[[prep expl] driver]]|m] st1]; try reflexivity.
  unfold defer, bind.
  assert (H : checkQueries w c s prep expl (vetConfig (Result_Settings result)) 0
                (Result_Queries result) false st1 = (Done (inr false), st1)).
  { destruct Hnothing as [Hrules|Hflags].
    - apply checkQueries_no_rules. exact Hrules.
    - apply checkQueries_all_disabled. exact Hflags. }
  rewrite H. reflexivity.
Qed.

Lemma X10_witness_no_rules :
  checkSQL (Sample.world (fun _ => [Sample.ListAll]) None None)
           (Sample.checker_of [] false)
           (Sample.group EnginePostgreSQL (Some "postgres://localhost/db") []) st0 =
    match connect (Sample.world (fun _ => [Sample.ListAll]) None None)
                  (Sample.checker_of [] false)
                  (Sample.group EnginePostgreSQL (Some "postgres://localhost/db") []) st0 with
    | (Done (inr (_, _, driver)), st1) => (Done None, snd (close driver st1))
    | (Done (inl err), st1) => (Done (Some err), st1)
    | (Panic m, st1) => (Panic m, st1)
    end.
Proof.
  refine (X10_nothing_to_check _ _ _ _ st0 _ _).
  - reflexivity.
  - left. reflexivity.
Defined.

(** X11: the groups are checked one after the other, each from the state
    and the flag the ones before it left; an error of a group never keeps
    a later group from being checked, only a panic ends the loop. *)
Theorem X11_vetGroups_composes
    (w : World) (c : checker) (sqls1 sqls2 : list SQL) :
  forall (errd : bool) (st : State),
    vetGroups w c (sqls1 ++ sqls2) errd st =
      match vetGroups w c sqls1 errd st with
      | (Done errd', st') => vetGroups w c sqls2 errd' st'
      | (Panic m, st') => (Panic m, st')
      end.
Proof.
  induction sqls1 as [|s sqls1 IH]; intros errd st; [reflexivity|].
  cbn [app vetGroups]. unfold bind at 1 3.
  destruct (checkSQL w c s st) as [[[err|]|m] st1]; [| |reflexivity].
  - unfold bind. destruct (negb (is_ErrFailedChecks err)); cbn; apply IH.
  - apply IH.
Qed.

(** ** The output of [Explain] and the evaluation environment *)

(** X12: an output of [Explain] has one side.  On the pgx adapter its
    PostgreSQL side holds the decoded plan and its MySQL side is [nil]; on
    the MySQL adapter it is the other way round, and the query block of the
    decoded plan carries no message (a plan with a message is an error). *)
Theorem X12_explain_output_has_one_side
    (w : World) (e : explainer) (query : string) (args : list PluginParameter)
    (st : State) :
  match fst (Explain w e query args st) with
  | Done (inr out) =>
      match e with
      | pgxConn_e =>
          out_MySQL out = None /\
          exists explain, out_PostgreSQL out = Some {| PostgreSQL_Explain := Some explain |}
      | mysqlExplainer =>
          out_PostgreSQL out = None /\
          exists explain block,
            out_MySQL out = Some {| MySQL_Explain := Some explain |} /\
            MySQLExplain_QueryBlock explain = Some block /\
            QueryBlock_Message block = EmptyString
      end
  | _ => True
  end.
Proof.
  unfold Explain. destruct e.
  - unfold pgxConn_Explain, bind, history, emit, ret, panic. cbn.
    destruct (pgx_QueryRow_Scan w (Log st) _ _) as [err|[|result0 result]]; cbn; auto.
    destruct (pjson_Unmarshal_PostgreSQLExplain w result0) as [err|explain]; cbn; auto.
    split; [reflexivity|]. exists explain. reflexivity.
  - unfold mysqlExplainer_Explain, bind, history, emit, ret, panic. cbn.
    destruct (sql_QueryRowContext_Scan w (Log st) _ _) as [err|result]; cbn; auto.
    destruct (pjson_Unmarshal_MySQLExplain w result) as [err|explain]; cbn; auto.
    destruct (MySQLExplain_QueryBlock explain) as [block|] eqn:Hb; cbn; auto.
    destruct (String.eqb_spec (QueryBlock_Message block) "") as [Hm|Hm]; cbn; auto.
    split; [reflexivity|]. exists explain, block. auto.
Qed.

Section EvalMapKeys.

Variables (w : World) (c : checker) (s : SQL).
Variables (prep : option preparer) (expl : option explainer).
Variables (i : nat) (cq : CompiledQuery).

Lemma explainStep_keys (name : string) (rule : rule) (ls ls' : loopState)
    (st st' : State) :
  explainStep w expl cq name rule ls st = (Done (Proceed ls'), st') ->
  ls' = ls \/
  (has_key (evalMap ls') "postgresql" = true /\ has_key (evalMap ls') "mysql" = true).
Proof.
  unfold explainStep. destruct (NeedsExplain rule && _); [|intros [= <- _]; auto].
  destruct expl as [x|]; [|discriminate]. unfold bind.
  destruct (Explain w x _ _ st) as [[[err|out]|m] st1]; try discriminate.
  intros [= <- _]. right. unfold has_key. cbn.
  rewrite lookup_insert_eq, lookup_insert_ne, lookup_insert_eq by discriminate. auto.
Qed.

Lemma checkRule_keys (name : string) (ls ls' : loopState) (st st' : State) (f : flow) :
  checkRule w c s prep expl i cq name ls st = (Done f, st') ->
  (f = Proceed ls' \/ f = Continue ls') ->
  has_key (evalMap ls) "postgresql" = has_key (evalMap ls) "mysql" ->
  has_key (evalMap ls') "postgresql" = has_key (evalMap ls') "mysql".
Proof.
  unfold checkRule. destruct (Rules c !! name) as [rule|];
    [|intros [= <- _] [H|H]; discriminate].
  unfold bind at 1.
  destruct (prepareStep w s prep i cq name rule ls st) as [r1 st1] eqn:E1.
  apply prepareStep_effect in E1 as [_ Hr1].
  destruct r1 as [[ls1|ls1|e]|m]; try contradiction; try discriminate.
  - subst ls1. destruct (rule_Program rule) as [prg|].
    + unfold bind.
      destruct (explainStep w expl cq name rule ls st1) as [[[ls2|ls2|e]|m] st2] eqn:E2;
        try discriminate.
      * intros E3 Hf Hinv. apply explainStep_keys in E2.
        apply evalStep_effect in E3 as [_ Hr3].
        assert (Hm : evalMap ls' = evalMap ls2)
          by (destruct Hf as [->| ->]; exact Hr3).
        rewrite Hm. destruct E2 as [->|[-> ->]]; auto.
      * intros [= <- _] [H|H]; [discriminate|]. injection H as <-.
        apply explainStep_effect in E2 as [_ [_ [Hm _]]]. rewrite Hm. auto.
      * apply explainStep_effect in E2 as [_ [_ []]].
    + intros [= <- _] [H|H]; [discriminate|]. injection H as <-. auto.
  - intros [= <- _] [H|H]; [discriminate|]. injection H as <-. rewrite Hr1. auto.
Qed.

Lemma checkRules_keys (names : list string) :
  forall (ls ls' : loopState) (st st' : State),
    checkRules w c s prep expl i cq names ls st = (Done (inr ls'), st') ->
    has_key (evalMap ls) "postgresql" = has_key (evalMap ls) "mysql" ->
    has_key (evalMap ls') "postgresql" = has_key (evalMap ls') "mysql".
Proof.
  induction names as [|name names IH]; intros ls ls' st st'; cbn [checkRules].
  - intros [= <- _]. auto.
  - unfold bind.
    destruct (checkRule w c s prep expl i cq name ls st) as [[f|m] st1] eqn:E;
      [|discriminate].
    destruct f as [ls1|ls1|e]; [| |discriminate]; intros H Hinv;
      apply (IH _ _ _ _ H); eapply checkRule_keys; eauto.
Qed.

End EvalMapKeys.

(** X13: the evaluation environment of a query.  Through the rule loop the
    entries [query] and [config] stay the projections that the fresh map
    was given, and the entries [postgresql] and [mysql] are both present or
    both absent: a program never sees one of them without the other. *)
Theorem X13_evalMap_entries
    (w : World) (c : checker) (s : SQL)
    (prep : option preparer) (expl : option explainer) (cfg : VetConfig)
    (i : nat) (cq : CompiledQuery) (names : list string) (errd : bool) (st : State) :
  match checkRules w c s prep expl i cq names
          {| errored := errd; evalMap := newEvalMap cfg (PQuery cq) |} st with
  | (Done (inr ls'), _) =>
      evalMap ls' !! "query" = Some (EnvQuery (vetQuery (PQuery cq))) /\
      evalMap ls' !! "config" = Some (EnvConfig cfg) /\
      has_key (evalMap ls') "postgresql" = has_key (evalMap ls') "mysql"
  | _ => True
  end.
Proof.
  destruct (checkRules w c s prep expl i cq names _ st) as [[[e|ls']|m] st'] eqn:E; auto.
  pose proof (checkRules_keys w c s prep expl i cq names _ _ _ _ E) as Hkeys.
  apply checkRules_frame in E as [_ [_ [_ [_ [_ [_ [Hq [Hc _]]]]]]]].
  cbn [evalMap] in Hq, Hc, Hkeys. rewrite Hq, Hc. unfold newEvalMap.
  split; [rewrite lookup_insert_ne by discriminate; apply lookup_insert_eq|].
  split; [apply lookup_insert_eq|]. apply Hkeys. unfold has_key, newEvalMap.
  rewrite !lookup_insert_ne, !lookup_empty by discriminate. reflexivity.
Qed.

(** ** Prepared statements *)

Lemma fmt_d_inj (z z' : Z) : fmt_d z = fmt_d z' -> z = z'.
Proof.
  unfold fmt_d. intros H. apply DecimalZ.to_int_inj.
  assert (Hnn : forall z, Z.to_int z <> Decimal.Pos Decimal.Nil /\
                          Z.to_int z <> Decimal.Neg Decimal.Nil).
  { intros [|p|p]; cbn; split; try discriminate;
      intros [= E]; exact (DecimalPos.Unsigned.to_uint_nonnil p E). }
  pose proof (NilZero.isi (Z.to_int z) (proj1 (Hnn z)) (proj2 (Hnn z))) as H1.
  pose proof (NilZero.isi (Z.to_int z') (proj1 (Hnn z')) (proj2 (Hnn z'))) as H2.
  rewrite H in H1. congruence.
Qed.

Lemma append_length (a b : string) :
  String.length (a +:+ b) = String.length a + String.length b.
Proof.
  induction a as [|x a IH]; [reflexivity|].
  change (S (String.length (a +:+ b)) = S (String.length a + String.length b)).
  rewrite IH. reflexivity.
Qed.

Lemma append_inj_l (a b b' : string) : a +:+ b = a +:+ b' -> b = b'.
Proof.
  induction a as [|x a IH]; [auto|].
  change (String x (a +:+ b) = String x (a +:+ b') -> b = b'). intros [= H]. auto.
Qed.

Lemma append_inj_r (a a' b : string) : a +:+ b = a' +:+ b -> a = a'.
Proof.
  revert a'. induction a as [|x a IH]; intros [|y a'] H.
  - reflexivity.
  - apply (f_equal String.length) in H. rewrite !append_length in H. cbn in H. lia.
  - apply (f_equal String.length) in H. rewrite !append_length in H. cbn in H. lia.
  - change (String x (a +:+ b) = String y (a' +:+ b)) in H. injection H as -> H.
    f_equal. apply IH. exact H.
Qed.

(** X14: the names of prepared statements.  Within one second two queries
    of a group never get the same statement name, and one query never gets
    the same name in two different seconds. *)
Theorem X14_statement_names_differ (unix unix' : Z) (i j : nat) :
  (stmtName unix i = stmtName unix j -> i = j) /\
  (stmtName unix i = stmtName unix' i -> unix = unix').
Proof.
  unfold stmtName. split; intros H; apply append_inj_l in H.
  - apply append_inj_l, append_inj_l, fmt_d_inj in H. lia.
  - rewrite <- (append_assoc (fmt_d unix)), <- (append_assoc (fmt_d unix')) in H.
    apply append_inj_r, append_inj_r, fmt_d_inj in H. exact H.
Qed.

(** X15: the built-in rule on the pgx adapter.  For a preparable statement
    [sqlc/db-prepare] makes exactly one [Prepare] call, under the statement
    name of the clock and the index of the query, and nothing else.  When
    the call succeeds nothing is written and the flag is left alone; when
    it fails one line about the query is written, ending in
    "error preparing query:" and the error, the flag is set, and the loop
    continues. *)
Theorem X15_db_prepare_on_pgx
    (w : World) (defs : list RuleDef) (c : checker) (s : SQL)
    (expl : option explainer) (i : nat) (cq : CompiledQuery)
    (ls : loopState) (st : State) :
  compileRules w defs builtinRules = inr (Rules c) ->
  prepareable s (RawStmt cq) = true ->
  let name := stmtName (time_Now_Unix w (Log st)) i in
  let st1 := grow st [] [EvPgxPrepare name (Query_Text (PQuery cq))] in
  match pgx_Prepare w (Log st) name (Query_Text (PQuery cq)) with
  | None =>
      checkRule w c s (Some pgxConn_p) expl i cq RuleDbPrepare ls st
        = (Done (Continue ls), st1)
  | Some err =>
      exists line,
        checkRule w c s (Some pgxConn_p) expl i cq RuleDbPrepare ls st
          = (Done (Continue (set_errored ls)), grow st1 [line] []) /\
        diagLine (PQuery cq) line /\
        exists pre, line = pre +:+ ": error preparing query: " +:+ err +:+ nl
  end.
Proof.
  intros Hc Hp name st1. unfold checkRule.
  rewrite (compileRules_keeps _ _ _ _ RuleDbPrepare _ Hc (lookup_singleton_eq _ _)).
  unfold bind at 1. unfold prepareStep. cbn [NeedsPrepare]. rewrite Hp. cbn [negb].
  unfold bind, history, Prepare, pgxConn_Prepare, bind, history, emit, ret.
  cbn [Log Stderr fmap option_fmap option_map]. fold (stmtName (time_Now_Unix w (Log st)) i).
  fold name. destruct (pgx_Prepare w (Log st) name (Query_Text (PQuery cq))) as [err|];
    cbn.
  - eexists. split; [unfold Fprintf, st1, grow; cbn; rewrite !app_nil_r; reflexivity|].
    split.
    + diag_line.
    + exists (Query_Filename (PQuery cq) +:+ ": " +:+ Query_Name (PQuery cq) +:+ ": "
              +:+ name).
      rewrite !append_assoc. reflexivity.
  - unfold st1, grow. rewrite app_nil_r. reflexivity.
Qed.

Lemma X15_witness_get_user :
  let w := Sample.world (fun _ => [Sample.GetUser]) None None in
  checkRule w (Sample.checker_of [("star", Sample.star_rule)] false)
    (Sample.group EnginePostgreSQL (Some "postgres://localhost/db") [RuleDbPrepare])
    (Some pgxConn_p) (Some pgxConn_e) 3 Sample.GetUser RuleDbPrepare
    (Sample.fresh false EnginePostgreSQL Sample.GetUser) st0
  = (Done (Continue (Sample.fresh false EnginePostgreSQL Sample.GetUser)),
     grow st0 [] [EvPgxPrepare (stmtName 1700000000 3)
                    (Query_Text (PQuery Sample.GetUser))]).
Proof.
  intros w.
  refine (X15_db_prepare_on_pgx w
            [Sample.def "star" Sample.no_select_star_src "avoid select *"]
            (Sample.checker_of [("star", Sample.star_rule)] false)
            (Sample.group EnginePostgreSQL (Some "postgres://localhost/db") [RuleDbPrepare])
            (Some pgxConn_e) 3 Sample.GetUser
            (Sample.fresh false EnginePostgreSQL Sample.GetUser) st0 _ _).
  - vm_compute. reflexivity.
  - reflexivity.
Defined.

(** X16: explain rules on SQLite.  The connection of a SQLite group comes
    without an explainer, so a rule that reads the explain output is
    reported for every query with "error explaining query: database
    connection required", database or not, and the loop continues. *)
Theorem X16_sqlite_has_no_explainer
    (w : World) (c : checker) (s : SQL) (st0 st1 : State)
    (prep : option preparer) (expl : option explainer) (driver : option string)
    (i : nat) (cq : CompiledQuery) (name : string) (rule : rule) (prg : Program)
    (ls : loopState) (st : State) :
  SQL_Engine s = EngineSQLite ->
  connect w c s st0 = (Done (inr (prep, expl, driver)), st1) ->
  Rules c !! name = Some rule ->
  NeedsPrepare rule = false -> NeedsExplain rule = true ->
  rule_Program rule = Some prg ->
  explainBound (evalMap ls) = false ->
  expl = None /\
  checkRule w c s prep expl i cq name ls st =
    (Done (Continue (set_errored ls)),
     grow st [Query_Filename (PQuery cq) +:+ ": " +:+ Query_Name (PQuery cq) +:+ ": "
              +:+ name +:+ ": error explaining query: database connection required"
              +:+ nl] []).
Proof.
  intros Hlite Hconn Hrule Hp He Hprg Hb.
  assert (Hexpl : expl = None).
  { pose proof (connect_cases w c s st0) as H. rewrite Hconn in H.
    destruct H as [[_ [_ [H _]]]|[uri [d [_ [_ [_ [_ [[E _]|[[E _]|[_ [_ [_ H]]]]]]]]]]]];
      try exact H; rewrite Hlite in E; discriminate. }
  split; [exact Hexpl|]. subst expl.
  unfold checkRule. rewrite Hrule. unfold bind at 1. unfold prepareStep.
  rewrite Hp. cbn. rewrite Hprg. unfold bind, explainStep.
  fold (explainBound (evalMap ls)). rewrite He, Hb. cbn.
  unfold grow. rewrite app_nil_r. reflexivity.
Qed.

Lemma X16_witness_sqlite_with_database :
  let w := Sample.world (fun _ => [Sample.GetUser]) None None in
  let c := Sample.checker_of [("many", Sample.many_rule)] false in
  let s := Sample.group EngineSQLite (Some "file:vet.db") ["many"] in
  checkRule w c s (Some dbPreparer) None 0 Sample.GetUser "many"
    (Sample.fresh false EngineSQLite Sample.GetUser)
    (grow st0 [] [EvOpen "sqlite3" "file:vet.db"]) =
    (Done (Continue (set_errored (Sample.fresh false EngineSQLite Sample.GetUser))),
     grow (grow st0 [] [EvOpen "sqlite3" "file:vet.db"])
       ["query.sql" +:+ ": " +:+ "GetUser" +:+ ": " +:+ "many"
        +:+ ": error explaining query: database connection required" +:+ nl] []).
Proof.
  intros w c s.
  refine (proj2 (X16_sqlite_has_no_explainer w c s st0
                   (grow st0 [] [EvOpen "sqlite3" "file:vet.db"])
                   (Some dbPreparer) None (Some "sqlite3") 0 Sample.GetUser "many"
                   Sample.many_rule Sample.many_rows
                   (Sample.fresh false EngineSQLite Sample.GetUser)
                   (grow st0 [] [EvOpen "sqlite3" "file:vet.db"]) _ _ _ _ _ _ _)).
  - reflexivity.
  - vm_compute. reflexivity.
  - vm_compute. reflexivity.
  - reflexivity.
  - reflexivity.
  - reflexivity.
  - vm_compute. reflexivity.
Defined.

(** ** Rules that do not compile, and the verdict of a rule *)

Lemma compileRules_error (w : World) (defs : list RuleDef) :
  forall (rules0 : gmap string rule) (err : error),
    compileRules w defs rules0 = inl err -> is_ErrFailedChecks err = false.
Proof.
  induction defs as [|c defs IH]; intros rules0 err; cbn [compileRules]; [discriminate|].
  destruct (Rule_Name c =? ""); [intros [= <-]; reflexivity|].
  destruct (rules0 !! Rule_Name c); [intros [= <-]; reflexivity|].
  destruct (Rule_Rule c =? ""); [intros [= <-]; reflexivity|].
  destruct (cel_Compile w (Rule_Rule c)); [intros [= <-]; reflexivity|].
  destruct (cel_Program w (Rule_Rule c)); [intros [= <-]; reflexivity|].
  apply IH.
Qed.

(** X17: rules that do not compile end the run before anything is
    checked.  [Vet] hands the error back at once; the command prints it on
    one line and exits with 1; no group is parsed, no connection opened and
    no query evaluated. *)
Theorem X17_compile_error_ends_the_run
    (w : World) (noDatabase : bool) (conf : Config) (err : error) (st : State) :
  compileRules w (Conf_Rules conf) builtinRules = inl err ->
  Vet w noDatabase conf st = (Done (Some err), st) /\
  RunE w noDatabase conf st = (Done 1%Z, grow st [Error err +:+ nl] []).
Proof.
  intros H. pose proof (compileRules_error _ _ _ _ H) as He.
  destruct err as [|msg]; [discriminate He|].
  unfold RunE, bind, Vet. rewrite H. cbn. unfold grow. rewrite app_nil_r. auto.
Qed.

Lemma X17_witness_duplicate_name :
  let w := Sample.world (fun _ => [Sample.GetUser]) None None in
  let conf := {| Conf_Rules := [Sample.def "star" Sample.no_select_star_src "";
                                Sample.def "star" Sample.many_rows_src ""];
                 Conf_SQL := [Sample.group EnginePostgreSQL None ["star"]] |} in
  let err := Errorf "type-check error: a rule with the name 'star' already exists" in
  Vet w false conf st0 = (Done (Some err), st0) /\
  RunE w false conf st0 = (Done 1%Z, grow st0 [Error err +:+ nl] []).
Proof.
  intros w conf err.
  refine (X17_compile_error_ends_the_run w false conf err st0 _).
  vm_compute. reflexivity.
Defined.

(** X18: the verdict of an expression rule.  For a rule compiled from a
    definition, when no explain output has to be fetched (the rule does not
    read it, or the environment holds one already) and the program yields a
    boolean, nothing but the program decides: [false] leaves the state and
    the flag alone; [true] sets the flag and writes one line naming the
    file, the query and the rule, followed by the message of the rule when
    it has one.  No database call is made, with or without a connection. *)
Theorem X18_verdict_of_an_expression_rule
    (w : World) (c : checker) (s : SQL)
    (prep : option preparer) (expl : option explainer)
    (i : nat) (cq : CompiledQuery) (name : string) (d : RuleDef) (prg : Program)
    (ls : loopState) (st : State) (tripped : bool) :
  Rules c !! name = Some (ruleOf d prg) ->
  NeedsExplain (ruleOf d prg) = false \/ explainBound (evalMap ls) = true ->
  prg (evalMap ls) = inr (VBool tripped) ->
  checkRule w c s prep expl i cq name ls st =
    if tripped then
      (Done (Proceed (set_errored ls)),
       grow st [Query_Filename (PQuery cq) +:+ ": " +:+ Query_Name (PQuery cq) +:+ ": "
                +:+ name
                +:+ (if Rule_Msg d =? "" then EmptyString else ": " +:+ Rule_Msg d)
                +:+ nl] [])
    else (Done (Proceed ls), st).
Proof.
  intros Hrule Hexpl Hprg.
  assert (Hnp : NeedsPrepare (ruleOf d prg) = false) by reflexivity.
  assert (Hpr : rule_Program (ruleOf d prg) = Some prg) by reflexivity.
  assert (Hmsg : Message (ruleOf d prg) = Rule_Msg d) by reflexivity.
  revert Hrule Hexpl Hnp Hpr Hmsg. generalize (ruleOf d prg). intros r Hrule Hexpl Hnp Hpr Hmsg.
  assert (Hstep : explainStep w expl cq name r ls st = (Done (Proceed ls), st)).
  { unfold explainStep. fold (explainBound (evalMap ls)).
    destruct Hexpl as [->| ->]; [reflexivity|]. rewrite andb_false_r. reflexivity. }
  unfold checkRule. rewrite Hrule. unfold bind at 1. unfold prepareStep.
  rewrite Hnp. unfold ret at 1. rewrite Hpr. unfold bind at 1. rewrite Hstep.
  unfold evalStep. rewrite Hprg. destruct tripped; [|reflexivity].
  rewrite Hmsg. unfold bind, Fprintf, ret.
  destruct (Rule_Msg d =? ""); rewrite err_grow; reflexivity.
Qed.

Lemma X18_witness_select_star :
  let w := Sample.world (fun _ => [Sample.ListAll]) None None in
  let d := Sample.def "no-select-star" Sample.no_select_star_src "avoid select *" in
  let c := Sample.checker_of [("no-select-star", ruleOf d Sample.no_select_star)] false in
  let s := Sample.group EnginePostgreSQL None ["no-select-star"] in
  checkRule w c s None None 0 Sample.ListAll "no-select-star"
    (Sample.fresh false EnginePostgreSQL Sample.ListAll) st0 =
    (Done (Proceed (set_errored (Sample.fresh false EnginePostgreSQL Sample.ListAll))),
     grow st0 ["query.sql" +:+ ": " +:+ "ListAll" +:+ ": " +:+ "no-select-star"
               +:+ ": " +:+ "avoid select *" +:+ nl] []).
Proof.
  intros w d c s.
  refine (X18_verdict_of_an_expression_rule w c s None None 0 Sample.ListAll
            "no-select-star" d Sample.no_select_star
            (Sample.fresh false EnginePostgreSQL Sample.ListAll) st0 true _ _ _).
  - vm_compute. reflexivity.
  - left. reflexivity.
  - vm_compute. reflexivity.
Defined.

(** X19: the explain output of a query is fixed once it is there.  From a
    state whose environment holds an explain output, the rule loop leaves
    the whole environment as it is: every later program of the query reads
    the same plan. *)
Theorem X19_explain_output_is_kept
    (w : World) (c : checker) (s : SQL)
    (prep : option preparer) (expl : option explainer)
    (i : nat) (cq : CompiledQuery) (names : list string) :
  forall (ls ls' : loopState) (st st' : State),
    explainBound (evalMap ls) = true ->
    checkRules w c s prep expl i cq names ls st = (Done (inr ls'), st') ->
    evalMap ls' = evalMap ls.
Proof.
  induction names as [|name names IH]; intros ls ls' st st' Hb; cbn [checkRules].
  - intros [= <- _]. reflexivity.
  - unfold bind.
    destruct (checkRule w c s prep expl i cq name ls st) as [[f|m] st1] eqn:E;
      [|discriminate].
    assert (Hkeep : match f with
                    | Proceed ls1 | Continue ls1 => evalMap ls1 = evalMap ls
                    | Return _ => True
                    end).
    { revert E. unfold checkRule.
      destruct (Rules c !! name) as [rule|]; [|intros [= <- _]; exact I].
      unfold bind at 1.
      destruct (prepareStep w s prep i cq name rule ls st) as [r1 st2] eqn:E1.
      apply prepareStep_effect in E1 as [_ Hr1].
      destruct r1 as [[ls1|ls1|e]|m]; try contradiction; try discriminate.
      - subst ls1. destruct (rule_Program rule) as [prg|];
          [|intros [= <- _]; reflexivity].
        unfold bind, explainStep. fold (explainBound (evalMap ls)).
        rewrite Hb, andb_false_r. cbn.
        intros E3. apply evalStep_effect in E3 as [_ Hr3].
        destruct f; auto.
      - intros [= <- _]. exact Hr1. }
    destruct f as [ls1|ls1|e]; [| |discriminate]; intros H;
      (rewrite <- Hkeep; apply (IH _ _ _ _ ltac:(rewrite Hkeep; exact Hb) H)).
Qed.

Lemma X19_witness_two_explain_rules :
  let w := Sample.world (fun _ => [Sample.GetUser]) None None in
  let c := Sample.checker_of [("many", Sample.many_rule); ("huge", Sample.huge_rule)] false in
  let s := Sample.group EnginePostgreSQL (Some "postgres://localhost/db") ["many"; "huge"] in
  let bound :=
    {| errored := false;
       evalMap := <["mysql" := EnvMySQL None]>
                    (<["postgresql" := EnvPostgreSQL None]>
                       (newEvalMap (vetConfig (Sample.settings EnginePostgreSQL))
                          (PQuery Sample.GetUser))) |} in
  explainBound (evalMap bound) = true /\
  checkRules w c s (Some pgxConn_p) (Some pgxConn_e) 0 Sample.GetUser ["many"; "huge"]
    bound st0 = (Done (inr bound), st0) /\
  evalMap bound = evalMap bound.
Proof.
  intros w c s bound.
  assert (Hb : explainBound (evalMap bound) = true) by (vm_compute; reflexivity).
  assert (Hrun : checkRules w c s (Some pgxConn_p) (Some pgxConn_e) 0 Sample.GetUser
                   ["many"; "huge"] bound st0 = (Done (inr bound), st0))
    by (vm_compute; reflexivity).
  split; [exact Hb|]. split; [exact Hrun|].
  exact (X19_explain_output_is_kept w c s (Some pgxConn_p) (Some pgxConn_e) 0
           Sample.GetUser ["many"; "huge"] bound bound st0 st0 Hb Hrun).
Defined.
